(** * time_tracker.py: session state machine, store and rollups

    A shallow embedding of [TimeTrackerApp] (src/time_tracker.py).

    The application object is a record; every Tk callback is a function
    from the object (and what the callback reads from its environment:
    the wall clock, a dialog's answer, whether the store fails) to an
    outcome and the object afterwards.  An exception raised inside a Tk
    callback is reported by Tk and the main loop goes on, so the object
    is left as it was at the raising statement.

    Modelling conventions.
    - [time.time()] is a rational number of seconds.  Values of
      [time.time()] are doubles; two readings of the wall clock lie in
      the same binade, where the subtraction of doubles is exact.  The
      readings are in the range [datetime.fromtimestamp] accepts.
    - [datetime.fromtimestamp] depends on the time zone of the process
      and is a parameter of the development.  [zone_fromtimestamp] is
      what it computes while the zone keeps one offset from UTC: the
      instant rounded to the microsecond, a tie to the even one.
    - SQLite INTEGER values and Python ints are [Z].
    - A table is the list of its rows in rowid order.  An INSERT without
      an explicit id appends a row whose id is one more than the largest
      id in use (1 in an empty table).
    - The TEXT columns [start_time] and [end_time] hold what sqlite3's
      adapter writes for a [datetime]: its ISO rendering.  The model keeps
      the [datetime] itself and renders it where the text is read as
      text (the export); SQLite's [date(...)] is its date part, and the
      comparison of ISO texts is the comparison of the values.  A [date]
      is its proleptic Gregorian ordinal ([date.toordinal()]), so that
      [weekday()] and the subtraction of days are arithmetic.
    - A connection has the tables as its own statements see them and the
      tables as last committed.  The statements that write (an INSERT,
      a commit) may fail; the SELECTs of the one local connection and the
      writing of the export file do not. *)

From Stdlib Require Import ZArith QArith Qround List Bool Ascii String Lia.
From Stdlib Require Import Permutation Sorted DecimalString DecimalZ.
From Stdlib Require OrderedTypeEx.
From Stdlib Require Import Lqa.
Import ListNotations.

Local Open Scope Z_scope.

(** ** Python and SQLite primitives *)

(** [int(x)] for a float [x]: truncation towards zero. *)
Definition py_int (x : Q) : Z := Z.quot (Qnum x) (Zpos (Qden x)).

(** Truthiness of an optional integer: [None] and [0] are false. *)
Definition truthy_int (o : option Z) : bool :=
  match o with
  | None => false
  | Some z => negb (z =? 0)
  end.

(** Truthiness of an optional float: [None] and [0.0] are false. *)
Definition truthy_float (o : option Q) : bool :=
  match o with
  | None => false
  | Some q => negb (Qnum q =? 0)
  end.

(** Truthiness of an optional string: [None] and [''] are false. *)
Definition truthy_str (o : option string) : option string :=
  match o with
  | None => None
  | Some EmptyString => None
  | Some s => Some s
  end.

(** [x or 0] for the result of [SELECT SUM(...)]. *)
Definition or_zero (o : option Z) : Z :=
  match o with
  | None => 0
  | Some z => if z =? 0 then 0 else z
  end.

(** [str(n)] for an int. *)
Definition py_str_int (z : Z) : string := NilZero.string_of_int (Z.to_int z).

(** [f"{n:02}"]: zero-padded to width two, the sign counted in the width. *)
Definition fmt02 (z : Z) : string :=
  if (0 <=? z) && (z <? 10) then String "0" (py_str_int z) else py_str_int z.

(** ** Dates and datetimes *)

Definition date := Z.

Record datetime := mk_datetime {
  dt_date : date;      (* calendar date, as its ordinal *)
  dt_usec : Z          (* microseconds since local midnight *)
}.

(** [date.weekday()]: Monday is 0, Sunday is 6; ordinal 1 is a Monday. *)
Definition weekday (d : date) : Z := (d + 6) mod 7.

(** [d - timedelta(days=k)]. *)
Definition minus_days (d : date) (k : Z) : date := d - k.

(** Order of two datetimes, which is the order of their ISO texts. *)
Definition dt_leb (a b : datetime) : bool :=
  (dt_date a <? dt_date b) ||
  ((dt_date a =? dt_date b) && (dt_usec a <=? dt_usec b)).

(** ** The two tables ([create_tables]) *)

Record project := mk_project {
  p_id : Z;             (* id INTEGER PRIMARY KEY *)
  p_name : string       (* name TEXT UNIQUE *)
}.

Record entry := mk_entry {
  e_id : Z;             (* id INTEGER PRIMARY KEY *)
  e_project_id : Z;     (* project_id INTEGER, no foreign key declared *)
  e_start_time : datetime;
  e_end_time : datetime;
  e_duration : Z;
  e_note : string
}.

Record db := mk_db {
  projects : list project;
  entries : list entry
}.

Definition empty_db : db := {| projects := []; entries := [] |}.

(** The rowid SQLite assigns to a row inserted without an id. *)
Definition next_rowid (ids : list Z) : Z :=
  match ids with
  | [] => 1
  | id :: ids' => fold_right Z.max id ids' + 1
  end.

(** [INSERT INTO projects(name) VALUES (?)].  The UNIQUE constraint on
    [name] makes the statement fail (sqlite3.IntegrityError) when a row
    has that name. *)
Definition insert_project (d : db) (name : string) : option db :=
  if existsb (fun p => String.eqb (p_name p) name) (projects d) then None
  else Some {| projects := projects d ++
                 [ {| p_id := next_rowid (map p_id (projects d));
                      p_name := name |} ];
               entries := entries d |}.

(** [INSERT INTO entries(project_id, start_time, end_time, duration, note)
    VALUES (?,?,?,?,?)].  No constraint of the table can reject the row. *)
Definition insert_entry (d : db) (project_id : Z) (start_ end_ : datetime)
    (duration : Z) (note : string) : Z * db :=
  let id := next_rowid (map e_id (entries d)) in
  (id,
   {| projects := projects d;
      entries := entries d ++
        [ {| e_id := id; e_project_id := project_id;
             e_start_time := start_; e_end_time := end_;
             e_duration := duration; e_note := note |} ] |}).

(** [SELECT id FROM projects WHERE name=?] followed by [fetchone()]. *)
Definition select_project_id (d : db) (name : string) : option Z :=
  option_map p_id
    (find (fun p => String.eqb (p_name p) name) (projects d)).

(** ** Queries *)

(** A row of [SELECT projects.name, start_time, end_time, duration, note]. *)
Record joined := mk_joined {
  j_project : string;
  j_start : datetime;
  j_end : datetime;
  j_duration : Z;
  j_note : string
}.

(** [FROM entries JOIN projects ON entries.project_id = projects.id]:
    the entries are scanned in rowid order and each one is paired with
    the project rows of that id (SQLite looks [projects] up by its integer
    primary key). *)
Definition join_entries_projects (d : db) : list joined :=
  flat_map
    (fun e =>
       map (fun p => {| j_project := p_name p;
                        j_start := e_start_time e;
                        j_end := e_end_time e;
                        j_duration := e_duration e;
                        j_note := e_note e |})
           (filter (fun p => p_id p =? e_project_id e) (projects d)))
    (entries d).

(** [ORDER BY start_time DESC]: a stable insertion sort, latest first.
    (SQLite leaves the order of rows with equal keys open.) *)
Fixpoint insert_desc (r : joined) (l : list joined) : list joined :=
  match l with
  | [] => [r]
  | x :: l' =>
      if dt_leb (j_start x) (j_start r) then r :: l
      else x :: insert_desc r l'
  end.

Definition order_by_start_desc (l : list joined) : list joined :=
  fold_right insert_desc [] l.

(** The query of [refresh_entries]. *)
Definition list_entries (d : db) : list joined :=
  order_by_start_desc (join_entries_projects d).

(** The query of [export_csv]: the same join, without ORDER BY. *)
Definition export_rows (d : db) : list joined := join_entries_projects d.

(** [SELECT SUM(duration)]: NULL when no row is selected. *)
Definition sql_sum (l : list Z) : option Z :=
  match l with
  | [] => None
  | _ => Some (fold_right Z.add 0 l)
  end.

(** [SELECT SUM(duration) FROM entries WHERE date(start_time)=?]. *)
Definition sum_duration_on (d : db) (day : date) : option Z :=
  sql_sum (map e_duration
             (filter (fun e => dt_date (e_start_time e) =? day) (entries d))).

(** [SELECT SUM(duration) FROM entries WHERE date(start_time)>=?]. *)
Definition sum_duration_since (d : db) (day : date) : option Z :=
  sql_sum (map e_duration
             (filter (fun e => day <=? dt_date (e_start_time e)) (entries d))).

(** [week_start] of [show_totals]. *)
Definition week_start (today : date) : date := minus_days today (weekday today).

(** [daily] and [weekly] of [show_totals]. *)
Definition daily_total (d : db) (today : date) : Z :=
  or_zero (sum_duration_on d today).

Definition weekly_total (d : db) (today : date) : Z :=
  or_zero (sum_duration_since d (week_start today)).

(** [format_time]. *)
Definition format_time (seconds : Z) : string :=
  let h := seconds / 3600 in
  let m := (seconds mod 3600) / 60 in
  let s := seconds mod 60 in
  (fmt02 h ++ ":" ++ fmt02 m ++ ":" ++ fmt02 s)%string.

(** ** Text of dates and datetimes

    What sqlite3's adapters write into the TEXT columns and what [str]
    gives for them when the rows are exported. *)

(** Decimal digits of a natural number, padded with zeros to [width]. *)
Definition pad0 (width : nat) (z : Z) : string :=
  let digits := py_str_int z in
  (string_of_list_ascii (repeat "0"%char (width - String.length digits))
   ++ digits)%string.

(** [_DAYS_BEFORE_MONTH] and [_DAYS_IN_MONTH] of datetime.py. *)
Definition days_before_month (month : Z) : Z :=
  nth (Z.to_nat month) [0; 0; 31; 59; 90; 120; 151; 181; 212; 243; 273; 304; 334] 0.

Definition days_in_month (month : Z) : Z :=
  nth (Z.to_nat month) [0; 31; 28; 31; 30; 31; 30; 31; 31; 30; 31; 30; 31] 0.

(** [_ord2ymd]: year, month and day of an ordinal. *)
Definition ord2ymd (ordinal : Z) : Z * Z * Z :=
  let n := ordinal - 1 in
  let n400 := n / 146097 in
  let n := n mod 146097 in
  let year := n400 * 400 + 1 in
  let n100 := n / 36524 in
  let n := n mod 36524 in
  let n4 := n / 1461 in
  let n := n mod 1461 in
  let n1 := n / 365 in
  let n := n mod 365 in
  let year := year + n100 * 100 + n4 * 4 + n1 in
  if (n1 =? 4) || (n100 =? 4) then (year - 1, 12, 31)
  else
    let leapyear := (n1 =? 3) && (negb (n4 =? 24) || (n100 =? 3)) in
    let month := Z.shiftr (n + 50) 5 in
    let preceding :=
      days_before_month month + (if (2 <? month) && leapyear then 1 else 0) in
    if n <? preceding
    then
      let month := month - 1 in
      let preceding :=
        preceding - (days_in_month month
                     + (if (month =? 2) && leapyear then 1 else 0)) in
      (year, month, n - preceding + 1)
    else (year, month, n - preceding + 1).

(** [date.isoformat()]. *)
Definition date_isoformat (d : date) : string :=
  let '(y, m, dd) := ord2ymd d in
  (pad0 4 y ++ "-" ++ pad0 2 m ++ "-" ++ pad0 2 dd)%string.

(** [datetime.isoformat(" ")]: the fraction is left out when it is zero. *)
Definition isoformat (t : datetime) : string :=
  let secs := dt_usec t / 1000000 in
  let us := dt_usec t mod 1000000 in
  let fraction := if us =? 0 then EmptyString else String "." (pad0 6 us) in
  (date_isoformat (dt_date t) ++ " "
   ++ pad0 2 (secs / 3600) ++ ":" ++ pad0 2 ((secs mod 3600) / 60) ++ ":"
   ++ pad0 2 (secs mod 60) ++ fraction)%string.

(** ** The delimited file ([csv.writer], dialect excel) *)

Module Csv.

Definition COMMA : ascii := ","%char.
Definition DQUOTE : ascii := "034"%char.
Definition CR : ascii := "013"%char.
Definition NL : ascii := "010"%char.

(** A character that makes the writer quote the field. *)
Definition special (c : ascii) : bool :=
  Ascii.eqb c COMMA || Ascii.eqb c DQUOTE || Ascii.eqb c CR || Ascii.eqb c NL.

(** The field between quotes, each quote of the field doubled. *)
Definition escape (f : list ascii) : list ascii :=
  flat_map (fun c => if Ascii.eqb c DQUOTE then [DQUOTE; DQUOTE] else [c]) f.

Definition write_field (f : list ascii) : list ascii :=
  if existsb special f then DQUOTE :: escape f ++ [DQUOTE] else f.

Fixpoint join_fields (fs : list (list ascii)) : list ascii :=
  match fs with
  | [] => []
  | [f] => write_field f
  | f :: fs' => write_field f ++ COMMA :: join_fields fs'
  end.

(** [writerow]: the fields joined by the delimiter, then the line
    terminator; a record that would be empty is written as two quotes. *)
Definition write_row (fs : list (list ascii)) : list ascii :=
  match fs with
  | [ [] ] => [DQUOTE; DQUOTE; CR; NL]
  | _ => join_fields fs ++ [CR; NL]
  end.

(** [writerows]. *)
Definition write_rows (rows : list (list (list ascii))) : list ascii :=
  flat_map write_row rows.

(** *** Reading the file back

    The reader of the same dialect, as a machine over the characters. *)

Inductive mode :=
| StartRecord
| StartField
| InField
| InQuoted
| QuoteInQuoted
| AfterCR.

Record reader := mk_reader {
  r_rows : list (list (list ascii));     (* records read, latest first *)
  r_fields : list (list ascii);          (* fields of the record, latest first *)
  r_field : list ascii;                (* the field, latest character first *)
  r_mode : mode
}.

Definition add_char (c : ascii) (m : mode) (r : reader) : reader :=
  mk_reader (r_rows r) (r_fields r) (c :: r_field r) m.

Definition save_field (m : mode) (r : reader) : reader :=
  mk_reader (r_rows r) (rev (r_field r) :: r_fields r) [] m.

Definition end_record (m : mode) (r : reader) : reader :=
  mk_reader (rev (r_fields r) :: r_rows r) [] [] m.

Definition set_mode (m : mode) (r : reader) : reader :=
  mk_reader (r_rows r) (r_fields r) (r_field r) m.

Definition read_char (r : reader) (c : ascii) : reader :=
  match r_mode r with
  | InQuoted =>
      if Ascii.eqb c DQUOTE then set_mode QuoteInQuoted r
      else add_char c InQuoted r
  | StartRecord | AfterCR =>
      if Ascii.eqb c NL then set_mode StartRecord r
      else if Ascii.eqb c CR then set_mode AfterCR r
      else if Ascii.eqb c DQUOTE then set_mode InQuoted r
      else if Ascii.eqb c COMMA then save_field StartField r
      else add_char c InField r
  | StartField =>
      if Ascii.eqb c NL then end_record StartRecord (save_field StartField r)
      else if Ascii.eqb c CR then end_record AfterCR (save_field StartField r)
      else if Ascii.eqb c DQUOTE then set_mode InQuoted r
      else if Ascii.eqb c COMMA then save_field StartField r
      else add_char c InField r
  | InField =>
      if Ascii.eqb c NL then end_record StartRecord (save_field StartField r)
      else if Ascii.eqb c CR then end_record AfterCR (save_field StartField r)
      else if Ascii.eqb c COMMA then save_field StartField r
      else add_char c InField r
  | QuoteInQuoted =>
      if Ascii.eqb c DQUOTE then add_char c InQuoted r
      else if Ascii.eqb c NL then end_record StartRecord (save_field StartField r)
      else if Ascii.eqb c CR then end_record AfterCR (save_field StartField r)
      else if Ascii.eqb c COMMA then save_field StartField r
      else add_char c InField r
  end.

Definition read_chars (r : reader) (t : list ascii) : reader :=
  fold_left read_char t r.

(** The records, once the characters are exhausted. *)
Definition finish (r : reader) : list (list (list ascii)) :=
  match r_mode r with
  | StartRecord | AfterCR => rev (r_rows r)
  | _ => rev (r_rows (end_record StartRecord (save_field StartField r)))
  end.

Definition start : reader := mk_reader [] [] [] StartRecord.

Definition read (t : list ascii) : list (list (list ascii)) := finish (read_chars start t).

(** The modes in which a field may begin. *)
Definition at_start (m : mode) : bool :=
  match m with
  | StartRecord | StartField | AfterCR => true
  | _ => false
  end.

(** The modes in which a written field leaves the reader. *)
Definition at_end (m : mode) : bool :=
  match m with
  | InField | QuoteInQuoted => true
  | _ => false
  end.

End Csv.

(** ** The application object *)

(** What the environment does to a statement that writes: nothing, or the
    [execute] raises, or the [commit] raises.  After a failure SQLite has
    either kept the open transaction or rolled it back. *)
Inductive fault :=
| NoFault
| ExecuteFails (rolled_back : bool)
| CommitFails (rolled_back : bool).

Inductive exn :=
| TypeError          (* subscripting or subtracting [None] *)
| SqliteError.       (* a sqlite3.Error that no handler catches *)

Inductive outcome :=
| Returned                               (* ran to its last statement *)
| EarlyReturn                            (* left through a bare [return] *)
| ShowWarning (title message : string)   (* messagebox.showwarning, then [return] *)
| ShowError (title message : string)     (* messagebox.showerror *)
| ShowInfo (title message : string)      (* messagebox.showinfo *)
| Raised (e : exn).

Record connection := mk_connection {
  tables : db;          (* what the statements of this connection see *)
  committed : db        (* what the last successful commit left *)
}.

(** A row of the Treeview. *)
Record tree_row := mk_tree_row {
  t_project : string;
  t_start : datetime;
  t_end : datetime;
  t_duration : string;
  t_note : string
}.

Record app := mk_app {
  conn : connection;
  active_project_id : option Z;
  start_time : option Q;
  project_list : list string;      (* the Listbox *)
  selection : option nat;          (* its [curselection()] *)
  note_entry : string;
  timer_label : string;
  tree : list tree_row;
  files : list (string * string)   (* files written, latest first *)
}.

Definition LF : ascii := "010"%char.

Definition set_conn (c : connection) (s : app) : app :=
  mk_app c (active_project_id s) (start_time s) (project_list s)
         (selection s) (note_entry s) (timer_label s) (tree s) (files s).

Definition set_tables (d : db) (s : app) : app :=
  set_conn {| tables := d; committed := committed (conn s) |} s.

(** [self.conn.commit()] when it succeeds. *)
Definition commit (s : app) : app :=
  set_conn {| tables := tables (conn s); committed := tables (conn s) |} s.

(** The store after a failed write. *)
Definition after_failure (rolled_back : bool) (s : app) : app :=
  if rolled_back
  then set_conn {| tables := committed (conn s);
                   committed := committed (conn s) |} s
  else s.

Definition set_session (p : option Z) (t : option Q) (s : app) : app :=
  mk_app (conn s) p t (project_list s) (selection s) (note_entry s)
         (timer_label s) (tree s) (files s).

Definition set_project_list (l : list string) (sel : option nat) (s : app) : app :=
  mk_app (conn s) (active_project_id s) (start_time s) l sel (note_entry s)
         (timer_label s) (tree s) (files s).

Definition set_note_entry (n : string) (s : app) : app :=
  mk_app (conn s) (active_project_id s) (start_time s) (project_list s)
         (selection s) n (timer_label s) (tree s) (files s).

Definition set_timer_label (l : string) (s : app) : app :=
  mk_app (conn s) (active_project_id s) (start_time s) (project_list s)
         (selection s) (note_entry s) l (tree s) (files s).

Definition set_tree (t : list tree_row) (s : app) : app :=
  mk_app (conn s) (active_project_id s) (start_time s) (project_list s)
         (selection s) (note_entry s) (timer_label s) t (files s).

Definition add_file (path text : string) (s : app) : app :=
  mk_app (conn s) (active_project_id s) (start_time s) (project_list s)
         (selection s) (note_entry s) (timer_label s) (tree s)
         ((path, text) :: files s).

(** [ORDER BY name]. *)
Fixpoint insert_name (n : string) (l : list string) : list string :=
  match l with
  | [] => [n]
  | x :: l' => if String.leb n x then n :: l else x :: insert_name n l'
  end.

Definition order_by_name (l : list string) : list string :=
  fold_right insert_name [] l.

(** [refresh_projects]: the Listbox is emptied, which drops the selection,
    and filled with the names in order. *)
Definition refresh_projects (s : app) : app :=
  set_project_list
    (order_by_name (map p_name (projects (tables (conn s))))) None s.

(** [refresh_entries]. *)
Definition refresh_entries (s : app) : app :=
  set_tree
    (map (fun r => {| t_project := j_project r; t_start := j_start r;
                      t_end := j_end r;
                      t_duration := format_time (j_duration r);
                      t_note := j_note r |})
         (list_entries (tables (conn s)))) s.

(** [add_project]; [answer] is what [askstring] returns. *)
Definition add_project (answer : option string) (f : fault) (s : app)
  : outcome * app :=
  match truthy_str answer with
  | None => (Returned, s)
  | Some name =>
      match f with
      | ExecuteFails rb => (Raised SqliteError, after_failure rb s)
      | _ =>
          match insert_project (tables (conn s)) name with
          | None => (ShowError "Error" "Project already exists", s)
          | Some d' =>
              let s1 := set_tables d' s in
              match f with
              | CommitFails rb => (Raised SqliteError, after_failure rb s1)
              | _ => (Returned, refresh_projects (commit s1))
              end
          end
      end
  end.

(** The test [if self.active_project_id]. *)
Definition running (s : app) : bool := truthy_int (active_project_id s).

(** [start_timer]; [now] is what [time.time()] returns. *)
Definition start_timer (now : Q) (s : app) : outcome * app :=
  if running s
  then (ShowWarning "Running" "Timer already running", s)
  else
    match selection s with
    | None => (EarlyReturn, s)
    | Some i =>
        let project_name := nth i (project_list s) EmptyString in
        match select_project_id (tables (conn s)) project_name with
        | None => (Raised TypeError, s)       (* [fetchone()] is [None] *)
        | Some id => (Returned, set_session (Some id) (Some now) s)
        end
    end.

(** [update_timer]; the rescheduling with [after] is the [UpdateTimer]
    event below. *)
Definition update_timer (now : Q) (s : app) : outcome * app :=
  if truthy_float (start_time s)
  then
    match start_time s with
    | Some t => (Returned, set_timer_label (format_time (py_int (now - t))) s)
    | None => (Returned, s)
    end
  else (Returned, s).

(** [show_totals]; [today] is [datetime.now().date()]. *)
Definition show_totals (today : date) (s : app) : outcome * app :=
  let daily := daily_total (tables (conn s)) today in
  let weekly := weekly_total (tables (conn s)) today in
  (ShowInfo "Totals"
     ("Today: " ++ format_time daily ++ String LF "This Week: "
      ++ format_time weekly)%string,
   s).

(** The fields [csv.writer] writes for a row of the query. *)
Definition csv_fields (r : joined) : list string :=
  [ j_project r; isoformat (j_start r); isoformat (j_end r);
    py_str_int (j_duration r); j_note r ].

Definition csv_header : list string :=
  [ "Project"; "Start"; "End"; "Duration (sec)"; "Note" ]%string.

(** What [export_csv] writes into the file. *)
Definition csv_records (d : db) : list (list string) :=
  csv_header :: map csv_fields (export_rows d).

Definition export_text (d : db) : string :=
  string_of_list_ascii
    (Csv.write_rows (map (map list_ascii_of_string) (csv_records d))).

(** Reading a delimited file back. *)
Definition parse_csv (content : string) : list (list string) :=
  map (map string_of_list_ascii) (Csv.read (list_ascii_of_string content)).

(** [export_csv]; [file] is what [asksaveasfilename] returns. *)
Definition export_csv (file : option string) (s : app) : outcome * app :=
  match truthy_str file with
  | None => (EarlyReturn, s)
  | Some path =>
      (ShowInfo "Export" "CSV exported successfully",
       add_file path (export_text (tables (conn s))) s)
  end.

(** The user picks a line of the Listbox. *)
Definition select_project (i : nat) (s : app) : app :=
  if (i <? List.length (project_list s))%nat
  then set_project_list (project_list s) (Some i) s
  else s.

(** [__init__] on the database file as the last commit left it. *)
Definition startup (d : db) (fs : list (string * string)) : app :=
  refresh_entries
    (refresh_projects
       (mk_app {| tables := d; committed := d |} None None [] None
               EmptyString "00:00:00" [] fs)).

Section Tracker.

(** [datetime.fromtimestamp]: the local date and time of an instant,
    as the time zone of the process has it. *)
Variable fromtimestamp : Q -> datetime.

(** [stop_timer]; [now] is what [time.time()] returns.  The guard
    [if not self.active_project_id] is the test [running]. *)
Definition stop_timer (now : Q) (f : fault) (s : app) : outcome * app :=
  match active_project_id s with
  | Some project_id =>
      if running s
      then
        let end_ := now in
        match start_time s with
        | None => (Raised TypeError, s)        (* [end - None] *)
        | Some started =>
            let duration := py_int (end_ - started) in
            match f with
            | ExecuteFails rb => (Raised SqliteError, after_failure rb s)
            | _ =>
                let s1 :=
                  set_tables
                    (snd (insert_entry (tables (conn s)) project_id
                            (fromtimestamp started) (fromtimestamp end_)
                            duration (note_entry s))) s in
                match f with
                | CommitFails rb => (Raised SqliteError, after_failure rb s1)
                | _ =>
                    (Returned,
                     refresh_entries
                       (set_timer_label "00:00:00"
                          (set_note_entry EmptyString
                             (set_session None None (commit s1)))))
                end
            end
        end
      else (EarlyReturn, s)
  | None => (EarlyReturn, s)
  end.

(** ** Runs of the application *)

Inductive event :=
| AddProject (answer : option string) (f : fault)
| SelectProject (i : nat)
| TypeNote (note : string)
| StartTimer (now : Q)
| StopTimer (now : Q) (f : fault)
| UpdateTimer (now : Q)
| ShowTotals (today : date)
| ExportCsv (file : option string)
| Relaunch.          (* [on_close], then the program is started again *)

Definition step (e : event) (s : app) : outcome * app :=
  match e with
  | AddProject answer f => add_project answer f s
  | SelectProject i => (Returned, select_project i s)
  | TypeNote note => (Returned, set_note_entry note s)
  | StartTimer now => start_timer now s
  | StopTimer now f => stop_timer now f s
  | UpdateTimer now => update_timer now s
  | ShowTotals today => show_totals today s
  | ExportCsv file => export_csv file s
  | Relaunch => (Returned, startup (committed (conn s)) (files s))
  end.

(** The outcomes of a sequence of events, and the object after them. *)
Fixpoint run (s : app) (es : list event) : list (event * outcome) * app :=
  match es with
  | [] => ([], s)
  | e :: es' =>
      let '(o, s1) := step e s in
      let '(log, s2) := run s1 es' in
      ((e, o) :: log, s2)
  end.

(** A fresh database file. *)
Definition fresh : app := startup empty_db [].

(** ** Notions the statements use *)

(** The sum of the durations of a list of entries. *)
Definition sum_durations (l : list entry) : Z :=
  fold_right Z.add 0 (map e_duration l).

(** The start of [e] is on the day [day]. *)
Definition starts_on (day : date) (e : entry) : bool :=
  dt_date (e_start_time e) =? day.

(** The start of [e] is on the day [day] or later. *)
Definition starts_since (day : date) (e : entry) : bool :=
  day <=? dt_date (e_start_time e).

(** The span the words "Monday 00:00:00 through the query instant" name,
    in whole days: from the Monday of the week of [today] to [today]. *)
Definition in_week_to_date (today : date) (e : entry) : bool :=
  (week_start today <=? dt_date (e_start_time e))
  && (dt_date (e_start_time e) <=? today).


Definition has_project (d : db) (id : Z) : Prop :=
  exists p, In p (projects d) /\ p_id p = id.

Definition has_name (d : db) (n : string) : Prop :=
  exists p, In p (projects d) /\ p_name p = n.

Record app_inv (s : app) : Prop := mk_app_inv {
  inv_ids : Forall (fun p => 0 < p_id p) (projects (tables (conn s)));
  inv_projects :
    exists pending,
      projects (tables (conn s)) = projects (committed (conn s)) ++ pending;
  inv_entries :
    exists pending,
      entries (tables (conn s)) = entries (committed (conn s)) ++ pending;
  inv_list :
    forall n, In n (project_list s) -> has_name (committed (conn s)) n;
  inv_selection :
    forall i, selection s = Some i -> (i < List.length (project_list s))%nat;
  inv_active :
    forall a, active_project_id s = Some a ->
              has_project (committed (conn s)) a;
  inv_session : active_project_id s = None <-> start_time s = None
}.

(** In a log, the starts and the stops that went through take turns;
    [active] says whether a session is running before the log.  Closing
    the window drops the session. *)
Fixpoint alternates (active : bool) (log : list (event * outcome)) : bool :=
  match log with
  | [] => true
  | (e, o) :: log' =>
      match e, o with
      | StartTimer _, Returned => negb active && alternates true log'
      | StopTimer _ _, Returned => active && alternates false log'
      | Relaunch, _ => alternates false log'
      | _, _ => alternates active log'
      end
  end.

Definition pending_entries (s : app) : Prop :=
  exists pending,
    entries (tables (conn s)) = entries (committed (conn s)) ++ pending.

(** [int(text)] for the decimal text of an int. *)
Definition parse_int (t : string) : option Z :=
  option_map Z.of_int (NilZero.int_of_string t).

(** The rows are latest first. *)
Definition latest_first (l : list joined) : Prop :=
  StronglySorted (fun a b => dt_leb (j_start b) (j_start a) = true) l.

(** The names are in ascending order. *)
Definition names_ascending (l : list string) : Prop :=
  StronglySorted (fun a b => String.leb a b = true) l.

(** The keys of the two tables are keys: no two projects share an id or
    a name, no two entries share an id. *)
Definition keys_unique (d : db) : Prop :=
  NoDup (map p_id (projects d))
  /\ NoDup (map p_name (projects d))
  /\ NoDup (map e_id (entries d)).

(** What a row of the join takes from the entry. *)
Definition entry_fields (e : entry) : datetime * datetime * Z * string :=
  (e_start_time e, e_end_time e, e_duration e, e_note e).

Definition joined_fields (r : joined) : datetime * datetime * Z * string :=
  (j_start r, j_end r, j_duration r, j_note r).

Record store_inv (s : app) : Prop := mk_store_inv {
  si_project_ids :
    StronglySorted Z.lt (map p_id (projects (tables (conn s))));
  si_names : NoDup (map p_name (projects (tables (conn s))));
  si_entry_ids :
    StronglySorted Z.lt (map e_id (entries (tables (conn s))));
  si_entries :
    Forall (fun e => has_project (committed (conn s)) (e_project_id e))
           (entries (tables (conn s)))
}.

(** The store does what the event asks of it. *)
Definition faultless (e : event) : bool :=
  match e with
  | AddProject _ NoFault | StopTimer _ NoFault => true
  | AddProject _ _ | StopTimer _ _ => false
  | _ => true
  end.

(** The row of the Treeview for a row of the listing. *)
Definition tree_row_of (r : joined) : tree_row :=
  mk_tree_row (j_project r) (j_start r) (j_end r)
              (format_time (j_duration r)) (j_note r).

(** An event that is not a tick of [update_timer]. *)
Definition not_tick (e : event) : bool :=
  match e with
  | UpdateTimer _ => false
  | _ => true
  end.

(** Two objects that differ at most in the text of the timer label. *)
Definition same_but_label (s s' : app) : Prop :=
  set_timer_label EmptyString s = set_timer_label EmptyString s'.

(** The events whose callback writes to the store, and those whose
    callback sets or clears the session. *)
Definition writes_store (e : event) : bool :=
  match e with
  | AddProject _ _ | StopTimer _ _ | Relaunch => true
  | _ => false
  end.

Definition moves_session (e : event) : bool :=
  match e with
  | StartTimer _ | StopTimer _ _ | Relaunch => true
  | _ => false
  end.

(** The window shows the store: nothing is pending, the Listbox has the
    names of the projects in order and the Treeview the listing. *)
Definition display_in_sync (s : app) : Prop :=
  committed (conn s) = tables (conn s)
  /\ project_list s = order_by_name (map p_name (projects (tables (conn s))))
  /\ tree s = map tree_row_of (list_entries (tables (conn s))).

(** The clock readings of the starts and stops never go back; [t] is the
    reading before the events. *)
Fixpoint chronological (t : Q) (es : list event) : Prop :=
  match es with
  | [] => True
  | StartTimer now :: es' => (t <= now)%Q /\ chronological now es'
  | StopTimer now _ :: es' => (t <= now)%Q /\ chronological now es'
  | _ :: es' => chronological t es'
  end.

(** What a chronological run keeps: the session did not start after the
    last reading [t], and no duration is negative. *)
Definition durations_inv (t : Q) (s : app) : Prop :=
  (forall started, start_time s = Some started -> (started <= t)%Q)
  /\ Forall (fun e => 0 <= e_duration e) (entries (tables (conn s)))
  /\ Forall (fun e => 0 <= e_duration e) (entries (committed (conn s))).

(** [n] days in a row, from [day] on. *)
Fixpoint days_from (day : date) (n : nat) : list date :=
  match n with
  | O => []
  | S n' => day :: days_from (day + 1) n'
  end.

(** The daily totals of a list of days, added up. *)
Definition sum_daily_totals (d : db) (days : list date) : Z :=
  fold_right Z.add 0 (map (daily_total d) days).

(** [round(x)] for a float: to the nearest integer, a tie to the even one. *)
Definition round_half_even (x : Q) : Z :=
  let f := Qfloor x in
  match Qcompare (x - inject_Z f) (1 # 2) with
  | Lt => f
  | Gt => f + 1
  | Eq => if Z.even f then f else f + 1
  end.

(** [datetime.fromtimestamp] in a zone that keeps one offset from UTC,
    [offset] seconds: the instant is rounded to the microsecond and split
    into the day and the microseconds of the day.  Ordinal 719163 is
    1970-01-01. *)
Definition zone_fromtimestamp (offset : Z) (t : Q) : datetime :=
  let us := round_half_even (t * 1000000) + offset * 1000000 in
  mk_datetime (719163 + us / 86400000000) (us mod 86400000000).

(** Microseconds from the midnight before ordinal 1 to a datetime. *)
Definition dt_micros (t : datetime) : Z :=
  dt_date t * 86400000000 + dt_usec t.

(** [end_time - start_time] of an entry as stored, in seconds. *)
Definition stored_seconds (e : entry) : Q :=
  (dt_micros (e_end_time e) - dt_micros (e_start_time e)) # 1000000.

(** ** Sample values *)

(** The local time of a zone that keeps UTC. *)
Definition utc_fromtimestamp (t : Q) : datetime := zone_fromtimestamp 0 t.

(** Wednesday 2024-01-03, 09:00:00 UTC. *)
Definition t0 : Q := 1704272400.
Definition wednesday : date := 738888.

Definition alpha_events : list event :=
  [ AddProject (Some "Alpha"%string) NoFault; SelectProject 0; StartTimer t0 ].

(** The object after [alpha_events]: a timer is running on "Alpha". *)
Definition alpha_running : app :=
  mk_app (mk_connection (mk_db [mk_project 1 "Alpha"] [])
                        (mk_db [mk_project 1 "Alpha"] []))
         (Some 1) (Some t0) ["Alpha"%string] (Some 0%nat)
         EmptyString "00:00:00" [] [].

Definition entry_on (id : Z) (project_id : Z) (day : date) (duration : Z)
  : entry :=
  mk_entry id project_id (mk_datetime day 32400000000)
           (mk_datetime day (32400000000 + duration * 1000000)) duration
           EmptyString.

(** Two entries of project "Alpha", the earlier one inserted first. *)
Definition two_days : db :=
  mk_db [mk_project 1 "Alpha"]
        [entry_on 1 1 738886 600; entry_on 2 1 738887 900].

(** A session on "Alpha" that starts a quarter of a microsecond after
    [t0], one step of the clock at that size, and stops at [t0 + 1]. *)
Definition drift_session : list event :=
  [ AddProject (Some "Alpha"%string) NoFault; SelectProject 0;
    StartTimer (t0 + (1 # 4194304)); StopTimer (t0 + 1) NoFault ].

(** A second session on "Alpha" is running, after the first of 125
    seconds was stopped. *)
Definition alpha_second_start : list event :=
  [ AddProject (Some "Alpha"%string) NoFault; SelectProject 0;
    StartTimer t0; StopTimer (t0 + 125) NoFault;
    SelectProject 0; StartTimer (t0 + 200) ].


(** "Alpha" is added and selected, no timer is running. *)
Definition alpha_selected : list event :=
  [ AddProject (Some "Alpha"%string) NoFault; SelectProject 0 ].

(** 125 seconds on "Alpha", from the start to the stop. *)
Definition alpha_session : list event :=
  [ AddProject (Some "Alpha"%string) NoFault; SelectProject 0;
    StartTimer t0; UpdateTimer (t0 + 60); StopTimer (t0 + 125) NoFault ].

(** The session of 125 seconds is over and "Alpha" is selected again. *)
Definition alpha_selected_again : list event :=
  alpha_session ++ [SelectProject 0].

(** * Properties *)

(** ** Rollups *)

Lemma or_zero_sql_sum (l : list Z) :
  or_zero (sql_sum l) = fold_right Z.add 0 l.
Proof.
  destruct l as [|z l]; [reflexivity|].
  unfold sql_sum, or_zero.
  destruct (Z.eqb_spec (fold_right Z.add 0 (z :: l)) 0) as [H|H];
    [symmetry; exact H | reflexivity].
Qed.

Lemma sum_durations_app (l1 l2 : list entry) :
  sum_durations (l1 ++ l2) = sum_durations l1 + sum_durations l2.
Proof.
  unfold sum_durations. induction l1 as [|e l1 IH]; simpl; [reflexivity|].
  rewrite IH. ring.
Qed.

Lemma daily_total_sum (d : db) (today : date) :
  daily_total d today = sum_durations (filter (starts_on today) (entries d)).
Proof. unfold daily_total, sum_duration_on. apply or_zero_sql_sum. Qed.

Lemma weekly_total_sum (d : db) (today : date) :
  weekly_total d today =
  sum_durations (filter (starts_since (week_start today)) (entries d)).
Proof. unfold weekly_total, sum_duration_since. apply or_zero_sql_sum. Qed.

Lemma week_start_monday (today : date) :
  weekday (week_start today) = 0 /\
  today - 6 <= week_start today <= today.
Proof.
  unfold week_start, minus_days, weekday.
  pose proof (Z.mod_pos_bound (today + 6) 7 ltac:(lia)) as Hb.
  split; [|lia].
  pose proof (Z.div_mod (today + 6) 7 ltac:(lia)) as E.
  replace (today - (today + 6) mod 7 + 6) with ((today + 6) / 7 * 7) by lia.
  apply Z_mod_mult.
Qed.


Lemma filter_since_before (day : date) (l1 l2 : list entry) (e : entry) :
  dt_date (e_start_time e) < day ->
  filter (starts_since day) (l1 ++ e :: l2) = filter (starts_since day) (l1 ++ l2).
Proof.
  intros H. rewrite !filter_app. simpl.
  unfold starts_since at 2.
  destruct (Z.leb_spec day (dt_date (e_start_time e))); [lia|reflexivity].
Qed.

(** C7, as the code has it: [week_start] is the Monday of the week of the
    query day, at most six days back; the weekly total is the sum over the
    entries that start on that Monday or later, with no bound at the query
    instant; an entry that starts before that Monday adds nothing, however
    close to the query day; and when no entry starts after the query day
    the total is the sum over the span from that Monday to the query day. *)
Theorem this_week_from_monday :
  forall (d : db) (today : date),
    weekday (week_start today) = 0
    /\ today - 6 <= week_start today <= today
    /\ weekly_total d today =
       sum_durations (filter (starts_since (week_start today)) (entries d))
    /\ (forall ps l1 e l2,
          dt_date (e_start_time e) < week_start today ->
          weekly_total (mk_db ps (l1 ++ e :: l2)) today =
          weekly_total (mk_db ps (l1 ++ l2)) today)
    /\ (Forall (fun e => dt_date (e_start_time e) <= today) (entries d) ->
        weekly_total d today =
        sum_durations (filter (in_week_to_date today) (entries d))).
Proof.
  intros d today.
  destruct (week_start_monday today) as [Hm Hb].
  split; [exact Hm|]. split; [exact Hb|].
  split; [apply weekly_total_sum|]. split.
  - intros ps l1 e l2 H. rewrite !weekly_total_sum. simpl.
    rewrite filter_since_before by assumption. reflexivity.
  - intros Hall. rewrite weekly_total_sum. f_equal.
    apply filter_ext_in. intros e He.
    rewrite Forall_forall in Hall. specialize (Hall e He).
    unfold starts_since, in_week_to_date.
    destruct (Z.leb_spec (dt_date (e_start_time e)) today); [|lia].
    symmetry. apply andb_true_r.
Qed.

Lemma join_skips_orphan (ps : list project) (l1 l2 : list entry) (e : entry) :
  (forall p, In p ps -> p_id p <> e_project_id e) ->
  join_entries_projects (mk_db ps (l1 ++ e :: l2)) =
  join_entries_projects (mk_db ps (l1 ++ l2)).
Proof.
  intros H. unfold join_entries_projects. simpl.
  rewrite !flat_map_app. simpl.
  replace (filter (fun p => p_id p =? e_project_id e) ps) with (@nil project).
  - reflexivity.
  - symmetry. induction ps as [|p ps IH]; [reflexivity|].
    simpl. destruct (Z.eqb_spec (p_id p) (e_project_id e)) as [E|E].
    + exfalso. apply (H p); [left; reflexivity|exact E].
    + apply IH. intros q Hq. apply H. right. exact Hq.
Qed.

(** C10: an entry whose [project_id] has no row in [projects] adds its
    duration to the daily total of its day and to the weekly total of its
    week, and the listing, the rows exported and the file written are
    what they are without it. *)
Theorem orphan_entry_counted_not_listed :
  forall (ps : list project) (l1 l2 : list entry) (e : entry) (today : date),
    (forall p, In p ps -> p_id p <> e_project_id e) ->
    (dt_date (e_start_time e) = today ->
     daily_total (mk_db ps (l1 ++ e :: l2)) today =
     daily_total (mk_db ps (l1 ++ l2)) today + e_duration e)
    /\ (week_start today <= dt_date (e_start_time e) ->
        weekly_total (mk_db ps (l1 ++ e :: l2)) today =
        weekly_total (mk_db ps (l1 ++ l2)) today + e_duration e)
    /\ list_entries (mk_db ps (l1 ++ e :: l2)) = list_entries (mk_db ps (l1 ++ l2))
    /\ export_rows (mk_db ps (l1 ++ e :: l2)) = export_rows (mk_db ps (l1 ++ l2))
    /\ export_text (mk_db ps (l1 ++ e :: l2)) = export_text (mk_db ps (l1 ++ l2)).
Proof.
  intros ps l1 l2 e today Horphan.
  pose proof (join_skips_orphan ps l1 l2 e Horphan) as Hj.
  repeat split.
  - intros Hd. rewrite !daily_total_sum. simpl.
    rewrite !filter_app. simpl. unfold starts_on at 2.
    rewrite Hd, Z.eqb_refl, !sum_durations_app.
    unfold sum_durations at 2. simpl. fold (sum_durations (filter (starts_on today) l2)).
    ring.
  - intros Hd. rewrite !weekly_total_sum. simpl.
    rewrite !filter_app. simpl. unfold starts_since at 2.
    destruct (Z.leb_spec (week_start today) (dt_date (e_start_time e))); [|lia].
    rewrite !sum_durations_app.
    unfold sum_durations at 2. simpl.
    fold (sum_durations (filter (starts_since (week_start today)) l2)).
    ring.
  - unfold list_entries. rewrite Hj. reflexivity.
  - exact Hj.
  - unfold export_text, csv_records, export_rows. rewrite Hj. reflexivity.
Qed.

(** ** The session *)

Lemma after_failure_session (rb : bool) (s : app) :
  active_project_id (after_failure rb s) = active_project_id s
  /\ start_time (after_failure rb s) = start_time s
  /\ note_entry (after_failure rb s) = note_entry s.
Proof. destruct rb; repeat split; reflexivity. Qed.

(** C2: when the INSERT or the commit of [stop_timer] fails, the call
    ends in the exception and the session (project and start instant) and
    the note typed are as they were; nothing of the running timer is
    lost. *)
Theorem stop_keeps_session_on_failure :
  forall (now : Q) (f : fault) (s : app),
    f <> NoFault ->
    active_project_id (snd (stop_timer now f s)) = active_project_id s
    /\ start_time (snd (stop_timer now f s)) = start_time s
    /\ note_entry (snd (stop_timer now f s)) = note_entry s
    /\ (running s = true -> start_time s <> None ->
        fst (stop_timer now f s) = Raised SqliteError
        /\ running (snd (stop_timer now f s)) = true).
Proof.
  intros now f s Hf.
  unfold stop_timer.
  destruct (active_project_id s) as [pid|] eqn:Ha.
  - destruct (running s) eqn:Hr.
    + destruct (start_time s) as [started|] eqn:Hs.
      * destruct f as [|rb|rb]; [contradiction| |];
          destruct rb; simpl; rewrite ?Ha, ?Hs;
          repeat split; try reflexivity;
          unfold running; simpl; exact Hr.
      * simpl. rewrite Ha, Hs. repeat split; intros; congruence.
    + simpl. rewrite Ha. repeat split; intros; congruence.
  - simpl. rewrite Ha. repeat split;
      unfold running in *; rewrite Ha in *; intros; simpl in *; congruence.
Qed.

(** C3: [stop_timer] with no session active leaves through its guard:
    no row is inserted and the object, its store included, is as it was. *)
Theorem stop_without_session :
  forall (now : Q) (f : fault) (s : app),
    running s = false ->
    stop_timer now f s = (EarlyReturn, s).
Proof.
  intros now f s Hr. unfold stop_timer.
  destruct (active_project_id s); [rewrite Hr|]; reflexivity.
Qed.

(** ** What every run keeps *)

Lemma fold_max_ge (x : Z) (l : list Z) : x <= fold_right Z.max x l.
Proof. induction l as [|y l IH]; simpl; lia. Qed.

Lemma fold_max_pos (x : Z) (l : list Z) : 0 < x -> 0 < fold_right Z.max x l.
Proof. intros H. pose proof (fold_max_ge x l). lia. Qed.

Lemma next_rowid_positive (ps : list project) :
  Forall (fun p => 0 < p_id p) ps -> 0 < next_rowid (map p_id ps).
Proof.
  intros H. destruct ps as [|p ps]; simpl; [lia|].
  inversion H; subst. pose proof (fold_max_pos (p_id p) (map p_id ps)). lia.
Qed.

Lemma in_insert_name (n x : string) (l : list string) :
  In x (insert_name n l) <-> x = n \/ In x l.
Proof.
  induction l as [|y l IH]; simpl.
  - intuition congruence.
  - destruct (String.leb n y); simpl; rewrite ?IH; intuition congruence.
Qed.

Lemma in_order_by_name (x : string) (l : list string) :
  In x (order_by_name l) <-> In x l.
Proof.
  induction l as [|y l IH]; simpl; [reflexivity|].
  rewrite in_insert_name, IH. intuition congruence.
Qed.

Lemma has_project_tables (s : app) (a : Z) :
  app_inv s -> has_project (committed (conn s)) a ->
  has_project (tables (conn s)) a.
Proof.
  intros I [p [Hp Ha]]. destruct (inv_projects s I) as [pend E].
  exists p. split; [|exact Ha]. rewrite E. apply in_or_app. left. exact Hp.
Qed.

Lemma has_name_tables (s : app) (n : string) :
  app_inv s -> has_name (committed (conn s)) n ->
  has_name (tables (conn s)) n.
Proof.
  intros I [p [Hp Hn]]. destruct (inv_projects s I) as [pend E].
  exists p. split; [|exact Hn]. rewrite E. apply in_or_app. left. exact Hp.
Qed.

(** Fields the invariant does not read may change. *)
Lemma inv_other_fields (s s' : app) :
  conn s' = conn s -> active_project_id s' = active_project_id s ->
  start_time s' = start_time s -> project_list s' = project_list s ->
  selection s' = selection s ->
  app_inv s -> app_inv s'.
Proof.
  intros Hc Ha Ht Hl Hsel I. destruct I.
  constructor; rewrite ?Hc, ?Ha, ?Ht, ?Hl, ?Hsel; assumption.
Qed.

Lemma inv_after_failure (rb : bool) (s : app) :
  app_inv s -> app_inv (after_failure rb s).
Proof.
  intros I. destruct rb; [|exact I]. pose proof I as I0. destruct I.
  constructor; simpl; try assumption.
  - destruct inv_projects0 as [pend E]. rewrite E in inv_ids0.
    apply Forall_app in inv_ids0. apply inv_ids0.
  - exists []. symmetry. apply app_nil_r.
  - exists []. symmetry. apply app_nil_r.
Qed.

Lemma inv_insert_project (s : app) (name : string) (d' : db) :
  app_inv s -> insert_project (tables (conn s)) name = Some d' ->
  app_inv (set_tables d' s).
Proof.
  intros I H. unfold insert_project in H.
  destruct (existsb _ _); [discriminate|]. inversion H; subst d'; clear H.
  destruct I. constructor; simpl; try assumption.
  - apply Forall_app. split; [assumption|].
    constructor; [|constructor]. simpl. apply next_rowid_positive. assumption.
  - destruct inv_projects0 as [pend E]. rewrite E.
    eexists. rewrite <- app_assoc. reflexivity.
Qed.

Lemma inv_insert_entry (s : app) project_id start_ end_ duration note :
  app_inv s ->
  app_inv (set_tables
             (snd (insert_entry (tables (conn s)) project_id start_ end_
                     duration note)) s).
Proof.
  intros I. destruct I. constructor; simpl; try assumption.
  destruct inv_entries0 as [pend E]. rewrite E.
  eexists. rewrite <- app_assoc. reflexivity.
Qed.

Lemma inv_commit (s : app) : app_inv s -> app_inv (commit s).
Proof.
  intros I. pose proof I as I0. destruct I. constructor; simpl; try assumption.
  - exists []. symmetry. apply app_nil_r.
  - exists []. symmetry. apply app_nil_r.
  - intros n Hn. apply (has_name_tables s n I0). auto.
  - intros a Ha. apply (has_project_tables s a I0). auto.
Qed.

Lemma inv_refresh_projects (s : app) :
  app_inv s -> committed (conn s) = tables (conn s) ->
  app_inv (refresh_projects s).
Proof.
  intros I Hc. destruct I. constructor; simpl; try assumption.
  - intros n Hn. apply (proj1 (in_order_by_name _ _)) in Hn.
    apply in_map_iff in Hn.
    destruct Hn as [p [Hp Hin]]. exists p. rewrite Hc. auto.
  - discriminate.
Qed.

Lemma inv_clear_session (s : app) :
  app_inv s -> app_inv (set_session None None s).
Proof.
  intros I. destruct I. constructor; simpl; try assumption.
  - discriminate.
  - split; reflexivity.
Qed.

Lemma inv_startup (d : db) (fs : list (string * string)) :
  Forall (fun p => 0 < p_id p) (projects d) -> app_inv (startup d fs).
Proof.
  intros H. unfold startup.
  apply (inv_other_fields
           (refresh_projects
              (mk_app {| tables := d; committed := d |} None None [] None
                 EmptyString "00:00:00" [] fs))); try reflexivity.
  apply inv_refresh_projects; [|reflexivity].
  constructor; simpl; try assumption.
  - exists []. symmetry. apply app_nil_r.
  - exists []. symmetry. apply app_nil_r.
  - contradiction.
  - discriminate.
  - discriminate.
  - split; reflexivity.
Qed.


Lemma find_app_left {A} (f : A -> bool) (l1 l2 : list A) (x : A) :
  find f l1 = Some x -> find f (l1 ++ l2) = Some x.
Proof.
  induction l1 as [|a l1 IH]; simpl; [discriminate|].
  destruct (f a); auto.
Qed.

Lemma find_present {A} (f : A -> bool) (l : list A) (x : A) :
  In x l -> f x = true -> exists y, find f l = Some y.
Proof.
  induction l as [|a l IH]; simpl; [contradiction|].
  intros [E|H] Hf.
  - subst a. rewrite Hf. eauto.
  - destruct (f a); eauto.
Qed.

(** The project [start_timer] finds for a line of the Listbox is one of
    the committed table. *)
Lemma inv_start_lookup (s : app) (i : nat) (id : Z) :
  app_inv s -> selection s = Some i ->
  select_project_id (tables (conn s))
    (nth i (project_list s) EmptyString) = Some id ->
  has_project (committed (conn s)) id.
Proof.
  intros I Hsel H.
  pose proof (inv_selection s I i Hsel) as Hlt.
  pose proof (inv_list s I _ (nth_In (project_list s) EmptyString Hlt)) as [p [Hp Hn]].
  destruct (inv_projects s I) as [pend E].
  destruct (find_present (fun q => String.eqb (p_name q)
                                     (nth i (project_list s) EmptyString))
              (projects (committed (conn s))) p Hp) as [y Hy].
  { rewrite Hn. apply String.eqb_refl. }
  unfold select_project_id in H. rewrite E in H.
  rewrite (find_app_left _ _ pend y Hy) in H. inversion H; subst.
  apply find_some in Hy. exists y. split; [apply Hy|reflexivity].
Qed.

Lemma step_inv (e : event) (s : app) :
  app_inv s -> app_inv (snd (step e s)).
Proof.
  intros I. destruct e as [answer f|i|note|now|now f|now|today|file|]; simpl.
  - (* add_project *)
    unfold add_project. destruct (truthy_str answer) as [name|]; [|exact I].
    destruct (insert_project (tables (conn s)) name) as [d'|] eqn:Hi.
    + pose proof (inv_insert_project s name d' I Hi) as I1.
      destruct f as [|rb|rb]; simpl.
      * apply inv_refresh_projects; [apply inv_commit; exact I1|reflexivity].
      * apply inv_after_failure. exact I.
      * apply inv_after_failure. exact I1.
    + destruct f as [|rb|rb]; simpl; try exact I.
      apply inv_after_failure. exact I.
  - (* the user selects *)
    unfold select_project.
    destruct (Nat.ltb_spec i (List.length (project_list s))); [|exact I].
    destruct I. constructor; simpl; try assumption.
    intros j Hj. inversion Hj; subst. assumption.
  - apply (inv_other_fields s); try reflexivity. exact I.
  - (* start_timer *)
    unfold start_timer. destruct (running s); [exact I|].
    destruct (selection s) as [i|] eqn:Hsel; [|exact I].
    destruct (select_project_id _ _) as [id|] eqn:Hid; [|exact I].
    simpl. pose proof (inv_start_lookup s i id I Hsel Hid) as Hp.
    destruct I. constructor; simpl; try assumption.
    + intros a Ha. inversion Ha; subst. exact Hp.
    + split; discriminate.
  - (* stop_timer *)
    unfold stop_timer. destruct (active_project_id s) as [pid|]; [|exact I].
    destruct (running s); [|exact I].
    destruct (start_time s) as [started|]; [|exact I].
    destruct f as [|rb|rb]; simpl.
    + apply (inv_other_fields
               (set_session None None
                  (commit (set_tables
                     (snd (insert_entry (tables (conn s)) pid
                             (fromtimestamp started) (fromtimestamp now)
                             (py_int (now - started)) (note_entry s))) s))));
        try reflexivity.
      apply inv_clear_session, inv_commit, inv_insert_entry. exact I.
    + apply inv_after_failure. exact I.
    + apply inv_after_failure, inv_insert_entry. exact I.
  - (* update_timer *)
    unfold update_timer. destruct (truthy_float (start_time s)); [|exact I].
    destruct (start_time s); [|exact I]. simpl.
    apply (inv_other_fields s); try reflexivity. exact I.
  - exact I.
  - (* export_csv *)
    unfold export_csv. destruct (truthy_str file); [|exact I]. simpl.
    apply (inv_other_fields s); try reflexivity. exact I.
  - (* relaunch *)
    apply inv_startup. destruct (inv_projects s I) as [pend E].
    pose proof (inv_ids s I) as H. rewrite E in H.
    apply Forall_app in H. apply H.
Qed.

Lemma fresh_inv : app_inv fresh.
Proof. apply inv_startup. constructor. Qed.

Lemma run_inv (es : list event) : forall s,
  app_inv s -> app_inv (snd (run s es)).
Proof.
  induction es as [|e es IH]; intros s I; [exact I|].
  simpl. pose proof (step_inv e s I) as I1.
  destruct (step e s) as [o s1]. simpl in I1.
  specialize (IH s1 I1). destruct (run s1 es) as [log s2]. exact IH.
Qed.

(** An active session has a project id that is not zero. *)
Lemma inv_running (s : app) :
  app_inv s -> (running s = true <-> active_project_id s <> None).
Proof.
  intros I. unfold running, truthy_int.
  destruct (active_project_id s) as [a|] eqn:Ha.
  - destruct (has_project_tables s a I (inv_active s I a Ha)) as [p [Hp Hid]].
    pose proof (inv_ids s I) as Hids. rewrite Forall_forall in Hids.
    specialize (Hids p Hp). rewrite Hid in Hids.
    destruct (Z.eqb_spec a 0); [lia|]. split; [discriminate|reflexivity].
  - split; [discriminate|intros H; contradiction].
Qed.

Lemma after_failure_running (rb : bool) (s : app) :
  running (after_failure rb s) = running s.
Proof. destruct rb; reflexivity. Qed.

Lemma step_running (e : event) (s : app) :
  app_inv s ->
  match e, fst (step e s) with
  | StartTimer _, Returned =>
      running s = false /\ running (snd (step e s)) = true
  | StopTimer _ _, Returned =>
      running s = true /\ running (snd (step e s)) = false
  | Relaunch, _ => running (snd (step e s)) = false
  | _, _ => running (snd (step e s)) = running s
  end.
Proof.
  intros I. pose proof (step_inv e s I) as I1.
  destruct e as [answer f|i|note|now|now f|now|today|file|]; simpl in *.
  - unfold add_project. destruct (truthy_str answer) as [name|]; [|reflexivity].
    destruct (insert_project (tables (conn s)) name) as [d'|];
      destruct f as [|rb|rb]; simpl; rewrite ?after_failure_running;
      reflexivity.
  - unfold select_project.
    destruct (Nat.ltb_spec i (List.length (project_list s))); reflexivity.
  - reflexivity.
  - unfold start_timer in *. destruct (running s) eqn:Hr; [simpl; exact Hr|].
    destruct (selection s) as [i|]; [|simpl; exact Hr].
    destruct (select_project_id _ _) as [id|]; [|simpl; exact Hr].
    simpl in *. split; [reflexivity|].
    apply (inv_running _ I1). discriminate.
  - unfold stop_timer. destruct (active_project_id s) as [pid|] eqn:Ha;
      [|reflexivity].
    destruct (running s) eqn:Hr; [|simpl; exact Hr].
    destruct (start_time s) as [started|]; [|simpl; exact Hr].
    destruct f as [|rb|rb]; simpl.
    + split; reflexivity.
    + rewrite after_failure_running. exact Hr.
    + rewrite after_failure_running. exact Hr.
  - unfold update_timer. destruct (truthy_float (start_time s)); [|reflexivity].
    destruct (start_time s); reflexivity.
  - reflexivity.
  - unfold export_csv. destruct (truthy_str file); reflexivity.
  - reflexivity.
Qed.

Lemma step_running_outcome (e : event) (s s1 : app) (o : outcome) :
  app_inv s -> step e s = (o, s1) ->
  match e, o with
  | StartTimer _, Returned => running s = false /\ running s1 = true
  | StopTimer _ _, Returned => running s = true /\ running s1 = false
  | Relaunch, _ => running s1 = false
  | _, _ => running s1 = running s
  end.
Proof.
  intros I E. pose proof (step_running e s I) as R.
  destruct e; unfold step in E, R; rewrite E in R; exact R.
Qed.

Lemma run_alternates (es : list event) : forall s,
  app_inv s -> alternates (running s) (fst (run s es)) = true.
Proof.
  induction es as [|e es IH]; intros s I; [reflexivity|].
  pose proof (step_inv e s I) as I1.
  simpl. destruct (step e s) as [o s1] eqn:E. simpl in I1.
  pose proof (step_running_outcome e s s1 o I E) as R.
  specialize (IH s1 I1). destruct (run s1 es) as [log s2]. simpl in *.
  destruct e; destruct o; simpl;
    first [ rewrite <- R; exact IH
          | rewrite R in IH; exact IH
          | destruct R as [R0 R1]; rewrite R0; rewrite R1 in IH; exact IH ].
Qed.

(** C1: in every run from a fresh store the session is one pair, both
    fields set or both absent; while a session is active [start_timer]
    only warns that a timer is running and leaves the object as it was;
    and in the log of the run the starts and stops that went through take
    turns, so no two starts succeed without a stop between them. *)
Theorem single_active_timer :
  forall (es : list event),
    let log := fst (run fresh es) in
    let s := snd (run fresh es) in
    (active_project_id s = None <-> start_time s = None)
    /\ (forall now, active_project_id s <> None ->
          start_timer now s =
          (ShowWarning "Running" "Timer already running", s))
    /\ alternates false log = true.
Proof.
  intros es log s.
  pose proof (run_inv es fresh fresh_inv) as I. fold s in I.
  split; [exact (inv_session s I)|]. split.
  - intros now Ha. apply (inv_running s I) in Ha.
    unfold start_timer. rewrite Ha. reflexivity.
  - exact (run_alternates es fresh fresh_inv).
Qed.

(** ** Entries, once committed *)

Lemma after_failure_entries (rb : bool) (s : app) :
  pending_entries s ->
  entries (committed (conn (after_failure rb s))) = entries (committed (conn s))
  /\ pending_entries (after_failure rb s).
Proof.
  intros H. destruct rb; simpl; split; try reflexivity; try exact H.
  exists []. symmetry. apply app_nil_r.
Qed.

Ltac same_conn Same :=
  cbn [snd];
  match goal with |- _ /\ pending_entries ?x => apply (Same x) end.

Ltac failed_write Fail :=
  cbn [snd];
  match goal with
  | |- _ /\ pending_entries (after_failure ?rb ?x) => apply (Fail rb x)
  end.

Lemma step_committed_entries (e : event) (s : app) :
  pending_entries s ->
  (exists later,
     entries (committed (conn (snd (step e s)))) =
     entries (committed (conn s)) ++ later)
  /\ pending_entries (snd (step e s)).
Proof.
  intros P.
  assert (Same : forall s', conn s' = conn s ->
            (exists later, entries (committed (conn s')) =
                           entries (committed (conn s)) ++ later)
            /\ pending_entries s').
  { intros s' E. unfold pending_entries. rewrite E. split; [|exact P].
    exists []. symmetry. apply app_nil_r. }
  assert (Fail : forall rb s1,
            committed (conn s1) = committed (conn s) -> pending_entries s1 ->
            (exists later, entries (committed (conn (after_failure rb s1))) =
                           entries (committed (conn s)) ++ later)
            /\ pending_entries (after_failure rb s1)).
  { intros rb s1 E P1. destruct (after_failure_entries rb s1 P1) as [H1 H2].
    split; [|exact H2]. exists []. rewrite H1, E. symmetry. apply app_nil_r. }
  destruct P as [pend E].
  destruct e as [answer f|i|note|now|now f|now|today|file|]; unfold step.
  - unfold add_project. destruct (truthy_str answer) as [name|];
      [|same_conn Same; reflexivity].
    unfold insert_project.
    destruct (existsb _ _).
    + destruct f as [|rb|rb]; try (same_conn Same; reflexivity).
      failed_write Fail; [reflexivity|exists pend; exact E].
    + destruct f as [|rb|rb].
      * simpl. split; [exists pend; exact E|].
        exists []. symmetry. apply app_nil_r.
      * failed_write Fail; [reflexivity|exists pend; exact E].
      * failed_write Fail; [reflexivity|exists pend; exact E].
  - same_conn Same. unfold select_project.
    destruct (Nat.ltb_spec i (List.length (project_list s))); reflexivity.
  - same_conn Same. reflexivity.
  - same_conn Same. unfold start_timer. destruct (running s); [reflexivity|].
    destruct (selection s); [|reflexivity].
    destruct (select_project_id _ _); reflexivity.
  - unfold stop_timer. destruct (active_project_id s) as [pid|];
      [|same_conn Same; reflexivity].
    destruct (running s); [|same_conn Same; reflexivity].
    destruct (start_time s) as [started|]; [|same_conn Same; reflexivity].
    destruct f as [|rb|rb].
    + simpl. split.
      * rewrite E. eexists. rewrite <- app_assoc. reflexivity.
      * exists []. symmetry. apply app_nil_r.
    + failed_write Fail; [reflexivity|exists pend; exact E].
    + failed_write Fail; [reflexivity|].
      simpl. unfold pending_entries. simpl. rewrite E.
      eexists. rewrite <- app_assoc. reflexivity.
  - same_conn Same. unfold update_timer.
    destruct (truthy_float (start_time s)); [|reflexivity].
    destruct (start_time s); reflexivity.
  - same_conn Same. reflexivity.
  - same_conn Same. unfold export_csv. destruct (truthy_str file); reflexivity.
  - simpl. split; exists []; symmetry; apply app_nil_r.
Qed.

Lemma run_committed_entries (es : list event) : forall s,
  pending_entries s ->
  exists later,
    entries (committed (conn (snd (run s es)))) =
    entries (committed (conn s)) ++ later.
Proof.
  induction es as [|e es IH]; intros s P.
  - exists []. symmetry. apply app_nil_r.
  - simpl. destruct (step_committed_entries e s P) as [[l1 H1] P1].
    destruct (step e s) as [o s1]. simpl in H1, P1.
    destruct (IH s1 P1) as [l2 H2]. destruct (run s1 es) as [log s2].
    simpl in *. exists (l1 ++ l2). rewrite H2, H1, app_assoc. reflexivity.
Qed.

Lemma py_int_floor (x : Q) :
  (0 <= x)%Q -> py_int x = Qfloor x /\ 0 <= py_int x.
Proof.
  destruct x as [n d]. unfold Qle, py_int, Qfloor. simpl. intros H.
  assert (Hn : 0 <= n) by lia.
  rewrite Z.quot_div_nonneg by lia.
  split; [reflexivity|]. apply Z.div_pos; lia.
Qed.

(** ** The instants as they are stored *)

Lemma Qfloor_unique (x : Q) (z : Z) :
  (inject_Z z <= x)%Q -> (x < inject_Z (z + 1))%Q -> Qfloor x = z.
Proof.
  intros H1 H2.
  pose proof (Qfloor_le x) as F1. pose proof (Qlt_floor x) as F2.
  assert (A : (inject_Z z < inject_Z (Qfloor x + 1))%Q)
    by (eapply Qle_lt_trans; eauto).
  assert (B : (inject_Z (Qfloor x) < inject_Z (z + 1))%Q)
    by (eapply Qle_lt_trans; eauto).
  rewrite <- Zlt_Qlt in A, B. lia.
Qed.

Lemma Qfloor_shift (x : Q) (n : Z) : Qfloor (x + inject_Z n) = Qfloor x + n.
Proof.
  pose proof (Qfloor_le x) as F1. pose proof (Qlt_floor x) as F2.
  apply Qfloor_unique.
  - rewrite inject_Z_plus. lra.
  - replace (Qfloor x + n + 1) with ((Qfloor x + 1) + n) by lia.
    rewrite inject_Z_plus. lra.
Qed.

Lemma round_half_even_shift (x : Q) (n : Z) :
  Z.even n = true ->
  round_half_even (x + inject_Z n) = round_half_even x + n.
Proof.
  intros E. unfold round_half_even. rewrite Qfloor_shift.
  assert (H : (x + inject_Z n - inject_Z (Qfloor x + n) ==
               x - inject_Z (Qfloor x))%Q)
    by (rewrite inject_Z_plus; lra).
  rewrite H. rewrite Z.even_add, E.
  destruct (Qcompare _ _); [|reflexivity|lia].
  destruct (Z.even (Qfloor x)); simpl; lia.
Qed.

Lemma round_half_even_bounds (x : Q) :
  Qfloor x <= round_half_even x <= Qfloor x + 1.
Proof.
  unfold round_half_even.
  destruct (Qcompare _ _); [destruct (Z.even _)| |]; lia.
Qed.

Lemma round_half_even_mono (x y : Q) :
  (x <= y)%Q -> round_half_even x <= round_half_even y.
Proof.
  intros H. pose proof (Qfloor_resp_le x y H) as F.
  destruct (Z.eq_dec (Qfloor x) (Qfloor y)) as [E|N].
  - unfold round_half_even. rewrite E.
    destruct (Qcompare_spec (x - inject_Z (Qfloor y)) (1 # 2)) as [Hx|Hx|Hx];
      destruct (Qcompare_spec (y - inject_Z (Qfloor y)) (1 # 2)) as [Hy|Hy|Hy];
      try destruct (Z.even (Qfloor y)); try lia; exfalso; lra.
  - pose proof (round_half_even_bounds x). pose proof (round_half_even_bounds y).
    lia.
Qed.

Lemma rounded_difference (a b : Q) :
  (a <= b)%Q ->
  Qfloor (b - a) * 1000000
  <= round_half_even (b * 1000000) - round_half_even (a * 1000000)
  <= (Qfloor (b - a) + 1) * 1000000.
Proof.
  intros H.
  pose proof (Qfloor_le (b - a)) as F1. pose proof (Qlt_floor (b - a)) as F2.
  set (D := Qfloor (b - a)) in *.
  assert (Ev : forall k, Z.even (k * 1000000) = true).
  { intros k. rewrite Z.even_mul. apply orb_true_r. }
  assert (L : (a * 1000000 + inject_Z (D * 1000000) <= b * 1000000)%Q).
  { rewrite inject_Z_mult. change (inject_Z 1000000) with 1000000%Q. lra. }
  assert (U : (b * 1000000 <= a * 1000000 + inject_Z ((D + 1) * 1000000))%Q).
  { rewrite inject_Z_mult. change (inject_Z 1000000) with 1000000%Q. lra. }
  apply round_half_even_mono in L, U.
  rewrite round_half_even_shift in L, U by apply Ev.
  lia.
Qed.

Lemma dt_micros_zone (offset : Z) (t : Q) :
  dt_micros (zone_fromtimestamp offset t) =
  719163 * 86400000000 + round_half_even (t * 1000000) + offset * 1000000.
Proof.
  unfold dt_micros, zone_fromtimestamp. cbv zeta. cbn [dt_date dt_usec].
  pose proof (Z.div_mod (round_half_even (t * 1000000) + offset * 1000000)
                86400000000).
  lia.
Qed.

Lemma stored_seconds_zone (offset id project_id duration : Z) (a b : Q)
      (note : string) :
  (a <= b)%Q ->
  let row := mk_entry id project_id (zone_fromtimestamp offset a)
                      (zone_fromtimestamp offset b) duration note in
  (inject_Z (Qfloor (b - a)) <= stored_seconds row
   <= inject_Z (Qfloor (b - a)) + 1)%Q.
Proof.
  intros H row. pose proof (rounded_difference a b H) as R.
  unfold stored_seconds. subst row. cbn [e_start_time e_end_time].
  rewrite !dt_micros_zone.
  replace (inject_Z (Qfloor (b - a)) + 1)%Q
    with (inject_Z (Qfloor (b - a)) + inject_Z 1)%Q by reflexivity.
  rewrite <- inject_Z_plus.
  unfold Qle, inject_Z. cbn [Qnum Qden]. lia.
Qed.

(** C5: a stop that goes through commits one new entry, of the project
    and the start of the session, with [duration = int(end - start)] of
    the two clock readings; when [start <= end] that is the floor of
    their difference and is not negative.  The [start_time] and
    [end_time] stored are the readings as local times, rounded to the
    microsecond: in a zone that has one offset at both instants the
    difference of the stored fields is [duration] seconds at least and
    one second more at most.  Whatever happens afterwards the committed
    entries begin with the entries committed by this stop, unchanged. *)
Theorem stop_creates_immutable_entry :
  forall (now started : Q) (project_id : Z) (s : app),
    active_project_id s = Some project_id ->
    running s = true ->
    start_time s = Some started ->
    let s' := snd (stop_timer now NoFault s) in
    let row :=
      mk_entry (next_rowid (map e_id (entries (tables (conn s)))))
               project_id (fromtimestamp started) (fromtimestamp now)
               (py_int (now - started)) (note_entry s) in
    fst (stop_timer now NoFault s) = Returned
    /\ entries (committed (conn s')) = entries (tables (conn s)) ++ [row]
    /\ ((started <= now)%Q ->
        e_duration row = Qfloor (now - started)
        /\ 0 <= e_duration row
        /\ (forall offset : Z,
              fromtimestamp started = zone_fromtimestamp offset started ->
              fromtimestamp now = zone_fromtimestamp offset now ->
              (inject_Z (e_duration row) <= stored_seconds row
               <= inject_Z (e_duration row) + 1)%Q))
    /\ (forall es : list event,
          exists later,
            entries (committed (conn (snd (run s' es)))) =
            entries (committed (conn s')) ++ later).
Proof.
  intros now started project_id s Ha Hr Hs s' row.
  assert (E : stop_timer now NoFault s =
              (Returned,
               refresh_entries
                 (set_timer_label "00:00:00"
                    (set_note_entry EmptyString
                       (set_session None None
                          (commit
                             (set_tables
                                (snd (insert_entry (tables (conn s)) project_id
                                        (fromtimestamp started)
                                        (fromtimestamp now)
                                        (py_int (now - started))
                                        (note_entry s))) s))))))).
  { unfold stop_timer. rewrite Ha, Hr, Hs. reflexivity. }
  subst s'. rewrite E. simpl.
  split; [reflexivity|]. split; [reflexivity|]. split.
  - intros Hle.
    assert (F : py_int (now - started) = Qfloor (now - started)
                /\ 0 <= py_int (now - started)).
    { apply py_int_floor.
      apply (proj1 (Qle_minus_iff started now)) in Hle. exact Hle. }
    destruct F as [F1 F2]. split; [exact F1|]. split; [exact F2|].
    intros offset Z1 Z2. subst row. rewrite Z1, Z2, F1.
    apply (stored_seconds_zone offset _ project_id _ started now (note_entry s)
             Hle).
  - intros es. apply run_committed_entries.
    exists []. symmetry. apply app_nil_r.
Qed.

(** ** Writing the delimited file and reading it back *)

Import Csv.

Lemma csv_read_chars_app r a b :
  read_chars r (a ++ b) = read_chars (read_chars r a) b.
Proof. apply fold_left_app. Qed.

Lemma csv_read_chars_cons r c t :
  read_chars r (c :: t) = read_chars (read_char r c) t.
Proof. reflexivity. Qed.

Lemma csv_special_false c :
  special c = false ->
  Ascii.eqb c NL = false /\ Ascii.eqb c CR = false /\
  Ascii.eqb c DQUOTE = false /\ Ascii.eqb c COMMA = false.
Proof.
  unfold special. intros H.
  repeat (apply orb_false_iff in H; destruct H as [H ?]).
  repeat split; assumption.
Qed.

Lemma csv_read_plain body : forall r,
  existsb special body = false ->
  r_mode r = InField ->
  read_chars r body =
  mk_reader (r_rows r) (r_fields r) (rev body ++ r_field r) InField.
Proof.
  induction body as [|c body IH]; intros r Hs Hm.
  - destruct r; simpl in *; subst; reflexivity.
  - simpl in Hs. apply orb_false_iff in Hs. destruct Hs as [Hc Hs].
    apply csv_special_false in Hc. destruct Hc as (Hn & Hr & Hq & Hk).
    rewrite csv_read_chars_cons.
    assert (H1 : read_char r c = add_char c InField r).
    { unfold read_char. rewrite Hm, Hn, Hr, Hk. reflexivity. }
    rewrite H1, IH by (assumption || reflexivity).
    simpl. rewrite <- app_assoc. reflexivity.
Qed.

Lemma csv_read_escaped f : forall r,
  r_mode r = InQuoted ->
  read_chars r (escape f) =
  mk_reader (r_rows r) (r_fields r) (rev f ++ r_field r) InQuoted.
Proof.
  induction f as [|c f IH]; intros r Hm.
  - destruct r; simpl in *; subst; reflexivity.
  - assert (He : escape (c :: f) =
                 (if Ascii.eqb c DQUOTE then [DQUOTE; DQUOTE] else [c]) ++ escape f)
      by reflexivity.
    rewrite He, csv_read_chars_app.
    assert (H1 : read_chars r (if Ascii.eqb c DQUOTE then [DQUOTE; DQUOTE] else [c])
                 = add_char c InQuoted r).
    { destruct (Ascii.eqb c DQUOTE) eqn:Hc.
      - apply Ascii.eqb_eq in Hc. subst c.
        rewrite !csv_read_chars_cons. unfold read_char at 2. rewrite Hm. reflexivity.
      - rewrite csv_read_chars_cons. unfold read_char. rewrite Hm, Hc. reflexivity. }
    rewrite H1, IH by reflexivity.
    simpl. rewrite <- app_assoc. reflexivity.
Qed.

Lemma csv_read_field f r :
  at_start (r_mode r) = true ->
  r_field r = [] ->
  exists m,
    read_chars r (write_field f) = mk_reader (r_rows r) (r_fields r) (rev f) m
    /\ (at_end m = true \/ (f = [] /\ m = r_mode r)).
Proof.
  intros Hm Hf. unfold write_field.
  destruct (existsb special f) eqn:Hs.
  - exists QuoteInQuoted. split; [|left; reflexivity].
    change (DQUOTE :: escape f ++ [DQUOTE])
      with ([DQUOTE] ++ escape f ++ [DQUOTE]).
    rewrite !csv_read_chars_app.
    assert (H1 : read_chars r [DQUOTE] = set_mode InQuoted r).
    { rewrite csv_read_chars_cons. unfold read_char.
      destruct (r_mode r); try discriminate; reflexivity. }
    rewrite H1, csv_read_escaped by reflexivity.
    simpl. rewrite Hf, app_nil_r. reflexivity.
  - destruct f as [|c f].
    + exists (r_mode r). split; [|right; split; reflexivity].
      destruct r; simpl in *; subst; reflexivity.
    + exists InField. split; [|left; reflexivity].
      simpl in Hs. apply orb_false_iff in Hs. destruct Hs as [Hc Hs].
      assert (H1 : read_char r c = add_char c InField r).
      { apply csv_special_false in Hc. destruct Hc as (Hn & Hr & Hq & Hk).
        unfold read_char.
        destruct (r_mode r); try discriminate;
          rewrite Hn, Hr, Hq, Hk; reflexivity. }
      rewrite csv_read_chars_cons, H1.
      rewrite csv_read_plain by (assumption || reflexivity).
      simpl. rewrite Hf. reflexivity.
Qed.

Lemma csv_read_comma rows fields field m :
  at_end m = true \/ at_start m = true ->
  read_char (mk_reader rows fields field m) COMMA =
  mk_reader rows (rev field :: fields) [] StartField.
Proof.
  intros [H|H]; destruct m; try discriminate; reflexivity.
Qed.

Lemma csv_read_crnl rows fields field m :
  at_end m = true \/ m = StartField ->
  read_chars (mk_reader rows fields field m) [CR; NL] =
  mk_reader (rev (rev field :: fields) :: rows) [] [] StartRecord.
Proof.
  intros [H|H]; [destruct m; try discriminate|subst m]; reflexivity.
Qed.

Lemma csv_read_join_fields fs : forall r,
  fs <> [] ->
  r_mode r = StartField ->
  r_field r = [] ->
  read_chars r (join_fields fs ++ [CR; NL]) =
  mk_reader ((rev (r_fields r) ++ fs) :: r_rows r) [] [] StartRecord.
Proof.
  induction fs as [|f fs IH]; intros r Hne Hm Hf; [contradiction|].
  destruct (csv_read_field f r) as [m [Hr Hend]];
    [rewrite Hm; reflexivity|assumption|].
  destruct fs as [|f' fs].
  - simpl join_fields. rewrite csv_read_chars_app, Hr.
    rewrite csv_read_crnl.
    + simpl. rewrite rev_involutive. reflexivity.
    + destruct Hend as [H|[_ H]]; [left; assumption|right; congruence].
  - change (join_fields (f :: f' :: fs))
      with (write_field f ++ [COMMA] ++ join_fields (f' :: fs)).
    rewrite <- !app_assoc, csv_read_chars_app, Hr.
    change ([COMMA] ++ join_fields (f' :: fs) ++ [CR; NL])
      with (COMMA :: (join_fields (f' :: fs) ++ [CR; NL])).
    rewrite csv_read_chars_cons, csv_read_comma.
    + rewrite IH by (discriminate || reflexivity).
      simpl. rewrite rev_involutive, <- app_assoc. reflexivity.
    + destruct Hend as [H|[_ H]]; [left; assumption|right].
      rewrite H, Hm. reflexivity.
Qed.

Lemma csv_read_write_row fs rows :
  fs <> [] ->
  read_chars (mk_reader rows [] [] StartRecord) (write_row fs) =
  mk_reader (fs :: rows) [] [] StartRecord.
Proof.
  intros Hne. destruct fs as [|f fs]; [contradiction|].
  destruct (csv_read_field f (mk_reader rows [] [] StartRecord))
    as [m [Hr Hend]]; [reflexivity|reflexivity|].
  simpl in Hr, Hend.
  destruct fs as [|f' fs].
  - destruct f as [|c f]; [reflexivity|].
    unfold write_row. simpl join_fields.
    rewrite csv_read_chars_app, Hr, csv_read_crnl.
    + rewrite rev_involutive. reflexivity.
    + destruct Hend as [H|[H _]]; [left; assumption|discriminate].
  - assert (Hw : write_row (f :: f' :: fs) =
                 write_field f ++ [COMMA] ++ join_fields (f' :: fs) ++ [CR; NL]).
    { unfold write_row. destruct f; simpl; rewrite <- ?app_assoc; reflexivity. }
    rewrite Hw, csv_read_chars_app, Hr.
    change ([COMMA] ++ join_fields (f' :: fs) ++ [CR; NL])
      with (COMMA :: (join_fields (f' :: fs) ++ [CR; NL])).
    rewrite csv_read_chars_cons, csv_read_comma.
    + rewrite csv_read_join_fields by (discriminate || reflexivity).
      simpl. rewrite rev_involutive. reflexivity.
    + destruct Hend as [H|[_ H]]; [left; assumption|right; subst m; reflexivity].
Qed.

Lemma csv_read_write_rows rows : forall acc,
  Forall (fun fs => fs <> []) rows ->
  read_chars (mk_reader acc [] [] StartRecord) (write_rows rows) =
  mk_reader (rev rows ++ acc) [] [] StartRecord.
Proof.
  induction rows as [|fs rows IH]; intros acc Hall; [reflexivity|].
  inversion Hall as [|? ? Hfs Hrows]; subst.
  unfold write_rows. simpl flat_map. fold (write_rows rows).
  rewrite csv_read_chars_app, csv_read_write_row by assumption.
  rewrite IH by assumption.
  simpl. rewrite <- app_assoc. reflexivity.
Qed.

(** Reading what the writer wrote gives the records back. *)
Lemma csv_read_write rows :
  Forall (fun fs => fs <> []) rows -> read (write_rows rows) = rows.
Proof.
  intros Hall. unfold read, start.
  rewrite csv_read_write_rows by assumption.
  unfold finish. simpl. rewrite app_nil_r. apply rev_involutive.
Qed.

Lemma parse_int_str (z : Z) : parse_int (py_str_int z) = Some z.
Proof.
  unfold parse_int, py_str_int.
  rewrite NilZero.isi.
  - simpl. f_equal. apply DecimalZ.of_to.
  - destruct z; simpl; try discriminate.
    intros H. inversion H as [H1]. exact (DecimalPos.Unsigned.to_uint_nonnil _ H1).
  - destruct z; simpl; try discriminate.
    intros H. inversion H as [H1]. exact (DecimalPos.Unsigned.to_uint_nonnil _ H1).
Qed.

Lemma parse_csv_written (records : list (list string)) :
  Forall (fun fs => fs <> []) records ->
  parse_csv
    (string_of_list_ascii
       (Csv.write_rows (map (map list_ascii_of_string) records))) = records.
Proof.
  intros H. unfold parse_csv.
  rewrite list_ascii_of_string_of_list_ascii, csv_read_write.
  - rewrite map_map. rewrite <- (map_id records) at 2.
    apply map_ext. intros fs. rewrite map_map. rewrite <- (map_id fs) at 2.
    apply map_ext. apply string_of_list_ascii_of_string.
  - apply Forall_map. eapply Forall_impl; [|exact H].
    intros fs Hfs. destruct fs; [contradiction|discriminate].
Qed.

Lemma dt_leb_total (a b : datetime) : dt_leb a b = false -> dt_leb b a = true.
Proof.
  unfold dt_leb. intros H.
  apply orb_false_iff in H. destruct H as [H1 H2].
  apply Z.ltb_ge in H1.
  destruct (Z.eqb_spec (dt_date a) (dt_date b)) as [E|E].
  - simpl in H2. apply Z.leb_gt in H2.
    rewrite E, Z.eqb_refl, Z.ltb_irrefl. simpl. apply Z.leb_le. lia.
  - apply orb_true_iff. left. apply Z.ltb_lt. lia.
Qed.

Lemma dt_leb_trans (a b c : datetime) :
  dt_leb a b = true -> dt_leb b c = true -> dt_leb a c = true.
Proof.
  unfold dt_leb. intros H1 H2.
  apply orb_true_iff in H1. apply orb_true_iff in H2. apply orb_true_iff.
  rewrite andb_true_iff, Z.ltb_lt, Z.eqb_eq, Z.leb_le in *. lia.
Qed.

Lemma insert_desc_perm (r : joined) (l : list joined) :
  Permutation (r :: l) (insert_desc r l).
Proof.
  induction l as [|x l IH]; simpl; [apply Permutation_refl|].
  destruct (dt_leb (j_start x) (j_start r)); [apply Permutation_refl|].
  eapply perm_trans; [apply perm_swap|]. apply perm_skip. exact IH.
Qed.

Lemma order_by_start_desc_perm (l : list joined) :
  Permutation l (order_by_start_desc l).
Proof.
  induction l as [|r l IH]; simpl; [apply Permutation_refl|].
  eapply perm_trans; [apply perm_skip; exact IH|]. apply insert_desc_perm.
Qed.

Lemma insert_desc_sorted (r : joined) (l : list joined) :
  latest_first l -> latest_first (insert_desc r l).
Proof.
  unfold latest_first. induction l as [|x l IH]; intros H; simpl.
  - constructor; constructor.
  - inversion H as [|? ? Hl Hx]; subst.
    destruct (dt_leb (j_start x) (j_start r)) eqn:E.
    + constructor; [exact H|]. constructor; [exact E|].
      eapply Forall_impl; [|exact Hx]. intros y Hy. simpl in Hy.
      eapply dt_leb_trans; eassumption.
    + constructor; [apply IH; exact Hl|].
      apply (Permutation_Forall (insert_desc_perm r l)).
      constructor; [apply dt_leb_total; exact E|exact Hx].
Qed.

Lemma order_by_start_desc_sorted (l : list joined) :
  latest_first (order_by_start_desc l).
Proof.
  induction l as [|r l IH]; simpl; [constructor|].
  apply insert_desc_sorted. exact IH.
Qed.

(** C8, as the code has it: reading the exported file back gives the
    header and then, for every row of the export query and in the order
    of that query (the entries in the order of their insertion), the
    project name, the start and end texts, the duration in decimal, which
    reads back as the duration, and the note.  The rows are those of
    [list_entries], which has them latest start first; the order of the
    file need not be that one.  That text is what [export_csv] writes to
    the path chosen. *)
Theorem export_round_trip :
  forall (d : db),
    parse_csv (export_text d) = csv_header :: map csv_fields (export_rows d)
    /\ (forall r, In r (export_rows d) ->
          parse_int (nth 3 (csv_fields r) EmptyString) = Some (j_duration r))
    /\ Permutation (export_rows d) (list_entries d)
    /\ latest_first (list_entries d)
    /\ (forall (s : app) (path : string),
          tables (conn s) = d -> path <> EmptyString ->
          files (snd (export_csv (Some path) s)) =
          (path, export_text d) :: files s).
Proof.
  intros d. split; [|split; [|split; [|split]]].
  - unfold export_text. apply parse_csv_written.
    constructor; [discriminate|].
    apply Forall_map. apply Forall_forall. intros r _. discriminate.
  - intros r _. apply parse_int_str.
  - apply order_by_start_desc_perm.
  - apply order_by_start_desc_sorted.
  - intros s path Hd Hp. unfold export_csv.
    destruct path as [|c path]; [contradiction|].
    simpl. rewrite Hd. reflexivity.
Qed.

(** ** The clock as it is shown *)

Lemma string_length_append (a b : string) :
  String.length (a ++ b) = (String.length a + String.length b)%nat.
Proof. induction a as [|c a IH]; simpl; [reflexivity|]. rewrite IH. reflexivity. Qed.

Lemma fmt02_width (z : Z) :
  0 <= z < 100 -> String.length (fmt02 z) = 2%nat.
Proof.
  intros H.
  assert (All : forallb (fun n => Nat.eqb (String.length (fmt02 (Z.of_nat n))) 2)
                        (seq 0 100) = true) by (vm_compute; reflexivity).
  rewrite forallb_forall in All.
  specialize (All (Z.to_nat z)).
  rewrite Z2Nat.id in All by lia.
  apply Nat.eqb_eq, All, in_seq. lia.
Qed.

(** X1: the three fields [format_time] shows add up to the seconds given:
    minutes and seconds are always within 0..59, and the hours carry the
    sign (an elapsed time below zero shows hours below zero). *)
Theorem format_time_adds_up :
  forall (seconds : Z),
    exists h m s,
      format_time seconds = (fmt02 h ++ ":" ++ fmt02 m ++ ":" ++ fmt02 s)%string
      /\ seconds = 3600 * h + 60 * m + s
      /\ 0 <= m < 60 /\ 0 <= s < 60
      /\ (0 <= seconds <-> 0 <= h).
Proof.
  intros seconds.
  exists (seconds / 3600), ((seconds mod 3600) / 60), (seconds mod 60).
  split; [reflexivity|].
  pose proof (Z.div_mod seconds 3600 ltac:(lia)) as E1.
  pose proof (Z.mod_pos_bound seconds 3600 ltac:(lia)) as B1.
  pose proof (Z.div_mod (seconds mod 3600) 60 ltac:(lia)) as E2.
  pose proof (Z.mod_pos_bound (seconds mod 3600) 60 ltac:(lia)) as B2.
  pose proof (Z.mod_pos_bound seconds 60 ltac:(lia)) as B3.
  assert (E3 : (seconds mod 3600) mod 60 = seconds mod 60).
  { replace (seconds mod 3600)
      with (seconds + (- (60 * (seconds / 3600))) * 60) by lia.
    apply Z_mod_plus_full. }
  assert (B4 : 0 <= (seconds mod 3600) / 60 < 60).
  { split; [apply Z.div_pos; lia|apply Z.div_lt_upper_bound; lia]. }
  split; [lia|]. split; [exact B4|]. split; [exact B3|].
  split; intros H.
  - apply Z.div_pos; lia.
  - destruct (Z.lt_ge_cases seconds 0) as [Hn|Hp]; [|exact Hp].
    assert (seconds / 3600 < 0) by (apply Z.div_lt_upper_bound; lia). lia.
Qed.

(** X2: below a hundred hours and not below zero, [format_time] is
    eight characters wide: two digits, a colon, two digits, a colon, two
    digits. *)
Theorem format_time_width :
  forall (seconds : Z),
    0 <= seconds < 360000 ->
    String.length (format_time seconds) = 8%nat.
Proof.
  intros seconds H. unfold format_time.
  pose proof (Z.mod_pos_bound seconds 3600 ltac:(lia)) as B1.
  pose proof (Z.mod_pos_bound seconds 60 ltac:(lia)) as B3.
  rewrite !string_length_append. simpl.
  rewrite !fmt02_width; [reflexivity|lia| |].
  - split; [apply Z.div_pos; lia|apply Z.div_lt_upper_bound; lia].
  - split; [apply Z.div_pos; lia|apply Z.div_lt_upper_bound; lia].
Qed.

Lemma py_int_nonneg_floor (x : Q) : 0 <= Qnum x -> py_int x = Qfloor x.
Proof.
  destruct x as [n d]. unfold py_int, Qfloor. simpl. intros H.
  apply Z.quot_div_nonneg; lia.
Qed.

Lemma py_int_neg_ceiling (x : Q) : Qnum x < 0 -> py_int x = Qceiling x.
Proof.
  destruct x as [n d]. unfold py_int, Qceiling, Qfloor, Qopp. simpl. intros H.
  rewrite <- (Z.opp_involutive n) at 1.
  rewrite Z.quot_opp_l by lia.
  rewrite Z.quot_div_nonneg by lia. reflexivity.
Qed.

Lemma py_int_mono (x y : Q) : (x <= y)%Q -> py_int x <= py_int y.
Proof.
  intros H.
  destruct (Z.lt_ge_cases (Qnum x) 0) as [Hx|Hx];
    destruct (Z.lt_ge_cases (Qnum y) 0) as [Hy|Hy].
  - rewrite !py_int_neg_ceiling by assumption. apply Qceiling_resp_le. exact H.
  - rewrite py_int_neg_ceiling, py_int_nonneg_floor by assumption.
    assert (Qceiling x <= 0).
    { change 0 with (Qceiling 0). apply Qceiling_resp_le.
      destruct x as [n d]. unfold Qle. simpl in *. lia. }
    assert (0 <= Qfloor y).
    { change 0 with (Qfloor 0). apply Qfloor_resp_le.
      destruct y as [n d]. unfold Qle. simpl in *. lia. }
    lia.
  - exfalso. destruct x as [n d], y as [m e]. unfold Qle in H. simpl in *. nia.
  - rewrite !py_int_nonneg_floor by assumption. apply Qfloor_resp_le. exact H.
Qed.

(** X3: the elapsed seconds [update_timer] shows and [stop_timer]
    records never go down as the clock goes up, are not negative once
    the clock is at or past the start, and are the whole seconds of the
    difference: [int(now - start) <= now - start < int(now - start) + 1]. *)
Theorem elapsed_seconds_follow_clock :
  forall (started now1 now2 : Q),
    (started <= now1)%Q -> (now1 <= now2)%Q ->
    0 <= py_int (now1 - started)
    /\ py_int (now1 - started) <= py_int (now2 - started)
    /\ (inject_Z (py_int (now1 - started)) <= now1 - started)%Q
    /\ (now1 - started < inject_Z (py_int (now1 - started) + 1))%Q.
Proof.
  intros started now1 now2 H1 H2.
  assert (P : (0 <= now1 - started)%Q).
  { apply (proj1 (Qle_minus_iff started now1)). exact H1. }
  destruct (py_int_floor (now1 - started) P) as [E N].
  split; [exact N|]. split.
  - apply py_int_mono. unfold Qminus. apply Qplus_le_l. exact H2.
  - rewrite E. split; [apply Qfloor_le|apply Qlt_floor].
Qed.

(** ** Projects *)

Lemma string_leb_iff (a b : string) :
  String.leb a b = true <-> a = b \/ OrderedTypeEx.String_as_OT.lt a b.
Proof.
  unfold String.leb.
  destruct (String.compare a b) eqn:C.
  - split; [intros _; left; apply OrderedTypeEx.String_as_OT.cmp_eq; exact C|reflexivity].
  - split; [intros _; right; apply OrderedTypeEx.String_as_OT.cmp_lt; exact C|reflexivity].
  - split; [discriminate|].
    intros [E|L].
    + apply OrderedTypeEx.String_as_OT.cmp_eq in E. unfold OrderedTypeEx.String_as_OT.cmp in E. congruence.
    + apply OrderedTypeEx.String_as_OT.cmp_lt in L. unfold OrderedTypeEx.String_as_OT.cmp in L. congruence.
Qed.

Lemma string_leb_trans (a b c : string) :
  String.leb a b = true -> String.leb b c = true -> String.leb a c = true.
Proof.
  rewrite !string_leb_iff. intros [E1|L1] [E2|L2]; subst; auto.
  right. eapply OrderedTypeEx.String_as_OT.lt_trans; eassumption.
Qed.

Lemma insert_name_perm (n : string) (l : list string) :
  Permutation (n :: l) (insert_name n l).
Proof.
  induction l as [|x l IH]; simpl; [apply Permutation_refl|].
  destruct (String.leb n x); [apply Permutation_refl|].
  eapply perm_trans; [apply perm_swap|]. apply perm_skip. exact IH.
Qed.

Lemma order_by_name_perm (l : list string) :
  Permutation l (order_by_name l).
Proof.
  induction l as [|n l IH]; simpl; [apply Permutation_refl|].
  eapply perm_trans; [apply perm_skip; exact IH|]. apply insert_name_perm.
Qed.

Lemma insert_name_ascending (n : string) (l : list string) :
  names_ascending l -> names_ascending (insert_name n l).
Proof.
  unfold names_ascending. induction l as [|x l IH]; intros H; simpl.
  - constructor; constructor.
  - inversion H as [|? ? Hl Hx]; subst.
    destruct (String.leb n x) eqn:E.
    + constructor; [exact H|]. constructor; [exact E|].
      eapply Forall_impl; [|exact Hx]. intros y Hy.
      eapply string_leb_trans; eassumption.
    + constructor; [apply IH; exact Hl|].
      apply (Permutation_Forall (insert_name_perm n l)).
      constructor; [|exact Hx].
      destruct (String.leb_total n x) as [T|T]; [congruence|exact T].
Qed.

Lemma order_by_name_ascending (l : list string) :
  names_ascending (order_by_name l).
Proof.
  induction l as [|n l IH]; simpl; [constructor|].
  apply insert_name_ascending. exact IH.
Qed.

(** X4: after [refresh_projects] the Listbox holds the names of the
    projects of the table, each as often as the table has it, in
    ascending order, and no line is selected; the store and the session
    are untouched. *)
Theorem refresh_projects_sorted_names :
  forall (s : app),
    names_ascending (project_list (refresh_projects s))
    /\ Permutation (map p_name (projects (tables (conn s))))
                   (project_list (refresh_projects s))
    /\ selection (refresh_projects s) = None
    /\ conn (refresh_projects s) = conn s
    /\ active_project_id (refresh_projects s) = active_project_id s
    /\ start_time (refresh_projects s) = start_time s.
Proof.
  intros s. split; [apply order_by_name_ascending|].
  split; [apply order_by_name_perm|]. repeat split.
Qed.

Lemma find_app_last {A} (f : A -> bool) (l : list A) (x : A) :
  find f (l ++ [x]) =
  match find f l with
  | Some y => Some y
  | None => if f x then Some x else None
  end.
Proof.
  induction l as [|a l IH]; simpl; [reflexivity|].
  destruct (f a); [reflexivity|exact IH].
Qed.

Lemma existsb_find_none {A} (f : A -> bool) (l : list A) :
  existsb f l = false <-> find f l = None.
Proof.
  induction l as [|a l IH]; simpl; [tauto|].
  destruct (f a); simpl; [split; discriminate|exact IH].
Qed.

(** X5: inserting a project and looking it up.  When the INSERT goes
    through, the name had no row before, it now has the new id, every
    other name is looked up as before and the entries are untouched; and
    the INSERT is refused exactly when the name already has a row. *)
Theorem insert_project_then_lookup :
  forall (d : db) (name : string),
    (forall d',
        insert_project d name = Some d' ->
        select_project_id d name = None
        /\ select_project_id d' name = Some (next_rowid (map p_id (projects d)))
        /\ (forall other, other <> name ->
              select_project_id d' other = select_project_id d other)
        /\ entries d' = entries d)
    /\ (insert_project d name = None <->
        exists id, select_project_id d name = Some id).
Proof.
  intros d name. unfold insert_project, select_project_id.
  destruct (existsb (fun p => String.eqb (p_name p) name) (projects d)) eqn:E.
  - split; [intros d' H; discriminate|].
    split; [intros _|reflexivity].
    destruct (find (fun p => String.eqb (p_name p) name) (projects d)) as [p|] eqn:F.
    + exists (p_id p). reflexivity.
    + apply existsb_find_none in F. congruence.
  - apply existsb_find_none in E.
    split.
    + intros d' H. inversion H; subst d'; clear H. simpl.
      rewrite E. split; [reflexivity|]. split; [|split; [|reflexivity]].
      * rewrite find_app_last, E. simpl. rewrite String.eqb_refl. reflexivity.
      * intros other Ho. rewrite find_app_last. simpl.
        destruct (find (fun p => String.eqb (p_name p) other) (projects d));
          [reflexivity|].
        destruct (String.eqb_spec name other); [congruence|reflexivity].
    + rewrite E. split; [discriminate|intros [id H]; discriminate].
Qed.

Lemma insert_project_has_name (d d' : db) (name : string) :
  insert_project d name = Some d' ->
  existsb (fun p => String.eqb (p_name p) name) (projects d') = true.
Proof.
  unfold insert_project. destruct (existsb _ (projects d)); [discriminate|].
  intros H. inversion H; subst d'. simpl.
  rewrite existsb_app. simpl. rewrite String.eqb_refl.
  apply orb_true_iff. right. reflexivity.
Qed.

(** X6: a name can be added once.  After [add_project] has run for a
    name, with the store in order, running it again for the same name
    ends in the box "Project already exists" and changes nothing; when
    the dialog is cancelled or left empty nothing happens at all. *)
Theorem add_project_twice_refused :
  forall (s : app) (name : string) (f : fault),
    (name <> EmptyString ->
     let s1 := snd (add_project (Some name) NoFault s) in
     add_project (Some name) NoFault s1 =
     (ShowError "Error" "Project already exists", s1))
    /\ add_project None f s = (Returned, s)
    /\ add_project (Some EmptyString) f s = (Returned, s).
Proof.
  intros s name f. split; [|split; reflexivity].
  intros Hn s1.
  assert (T : truthy_str (Some name) = Some name)
    by (destruct name; [contradiction|reflexivity]).
  assert (H1 : existsb (fun p => String.eqb (p_name p) name)
                       (projects (tables (conn s1))) = true).
  { subst s1. unfold add_project. rewrite T.
    destruct (insert_project (tables (conn s)) name) as [d'|] eqn:I; simpl.
    - apply (insert_project_has_name _ _ _ I).
    - unfold insert_project in I.
      destruct (existsb _ (projects (tables (conn s)))); [reflexivity|discriminate]. }
  unfold add_project at 1. rewrite T. unfold insert_project. rewrite H1.
  reflexivity.
Qed.

(** ** Keys and references in every run *)

Lemma fold_max_in (x y : Z) (l : list Z) :
  In y (x :: l) -> y <= fold_right Z.max x l.
Proof.
  induction l as [|z l IH]; simpl.
  - intros [E|[]]. lia.
  - intros [E|[E|H]].
    + specialize (IH (or_introl E)). lia.
    + lia.
    + specialize (IH (or_intror H)). lia.
Qed.

Lemma next_rowid_above (ids : list Z) :
  Forall (fun y => y < next_rowid ids) ids.
Proof.
  apply Forall_forall. intros y Hy. destruct ids as [|x l]; [contradiction|].
  simpl. pose proof (fold_max_in x y l Hy). lia.
Qed.

Lemma sorted_app_last {A} (R : A -> A -> Prop) (l : list A) (x : A) :
  StronglySorted R l -> Forall (fun y => R y x) l ->
  StronglySorted R (l ++ [x]).
Proof.
  induction l as [|a l IH]; intros S F; simpl.
  - constructor; constructor.
  - inversion S; subst. inversion F; subst.
    constructor; [apply IH; assumption|].
    apply Forall_app. split; [assumption|]. constructor; [assumption|constructor].
Qed.

Lemma sorted_app_left {A} (R : A -> A -> Prop) (l1 l2 : list A) :
  StronglySorted R (l1 ++ l2) -> StronglySorted R l1.
Proof.
  induction l1 as [|a l1 IH]; intros S; [constructor|].
  simpl in S. inversion S as [|? ? S' F]; subst.
  constructor; [apply IH; exact S'|].
  apply Forall_app in F. apply F.
Qed.

Lemma sorted_lt_nodup (l : list Z) : StronglySorted Z.lt l -> NoDup l.
Proof.
  induction 1 as [|a l S IH F]; constructor; [|exact IH].
  intros Hin. rewrite Forall_forall in F. specialize (F a Hin). lia.
Qed.

Lemma nodup_app_last {A} (l : list A) (x : A) :
  NoDup l -> ~ In x l -> NoDup (l ++ [x]).
Proof.
  intros N H. apply NoDup_app; [exact N|constructor; [intros []|constructor]|].
  intros a Ha [E|[]]. subst a. exact (H Ha).
Qed.

Lemma si_other_fields (s s' : app) :
  conn s' = conn s -> store_inv s -> store_inv s'.
Proof. intros Hc [A B C D]. constructor; rewrite Hc; assumption. Qed.

Lemma si_after_failure (rb : bool) (s : app) :
  app_inv s -> store_inv s -> store_inv (after_failure rb s).
Proof.
  intros I [A B C D]. destruct rb; [|constructor; assumption].
  destruct (inv_projects s I) as [pp Ep]. destruct (inv_entries s I) as [pe Ee].
  rewrite Ep in A, B. rewrite Ee in C, D. rewrite map_app in A, B, C.
  constructor; simpl.
  - apply (sorted_app_left _ _ _ A).
  - apply (NoDup_app_remove_r _ _ B).
  - apply (sorted_app_left _ _ _ C).
  - apply Forall_app in D. apply D.
Qed.

Lemma si_insert_project (s : app) (name : string) (d' : db) :
  store_inv s -> insert_project (tables (conn s)) name = Some d' ->
  store_inv (set_tables d' s).
Proof.
  intros [A B C D] H. unfold insert_project in H.
  destruct (existsb _ _) eqn:E; [discriminate|]. inversion H; subst d'; clear H.
  constructor; simpl; try assumption.
  - rewrite map_app. simpl. apply sorted_app_last; [exact A|].
    apply next_rowid_above.
  - rewrite map_app. simpl. apply nodup_app_last; [exact B|].
    intros Hin. apply in_map_iff in Hin. destruct Hin as [p [Hn Hp]].
    assert (existsb (fun p => String.eqb (p_name p) name)
                    (projects (tables (conn s))) = true).
    { apply existsb_exists. exists p. split; [exact Hp|].
      rewrite Hn. apply String.eqb_refl. }
    congruence.
Qed.

Lemma si_insert_entry (s : app) project_id start_ end_ duration note :
  store_inv s -> has_project (committed (conn s)) project_id ->
  store_inv (set_tables
               (snd (insert_entry (tables (conn s)) project_id start_ end_
                       duration note)) s).
Proof.
  intros [A B C D] H. constructor; simpl; try assumption.
  - rewrite map_app. simpl. apply sorted_app_last; [exact C|].
    apply next_rowid_above.
  - apply Forall_app. split; [exact D|]. constructor; [exact H|constructor].
Qed.

Lemma si_commit (s : app) : app_inv s -> store_inv s -> store_inv (commit s).
Proof.
  intros I [A B C D]. constructor; simpl; try assumption.
  eapply Forall_impl; [|exact D]. intros e He.
  apply (has_project_tables s _ I He).
Qed.

Lemma si_startup (s : app) (fs : list (string * string)) :
  app_inv s -> store_inv s -> store_inv (startup (committed (conn s)) fs).
Proof.
  intros I S.
  pose proof (si_after_failure true s I S) as [A B C D]. simpl in A, B, C, D.
  constructor; simpl; assumption.
Qed.

Lemma step_store_inv (e : event) (s : app) :
  app_inv s -> store_inv s -> store_inv (snd (step e s)).
Proof.
  intros I S. destruct e as [answer f|i|note|now|now f|now|today|file|]; simpl.
  - unfold add_project. destruct (truthy_str answer) as [name|]; [|exact S].
    destruct (insert_project (tables (conn s)) name) as [d'|] eqn:Hi.
    + pose proof (si_insert_project s name d' S Hi) as S1.
      pose proof (inv_insert_project s name d' I Hi) as I1.
      destruct f as [|rb|rb]; simpl.
      * apply (si_other_fields (commit (set_tables d' s))); [reflexivity|].
        apply si_commit; assumption.
      * apply si_after_failure; assumption.
      * apply si_after_failure; assumption.
    + destruct f as [|rb|rb]; simpl; try exact S.
      apply si_after_failure; assumption.
  - apply (si_other_fields s); [|exact S]. unfold select_project.
    destruct (Nat.ltb_spec i (List.length (project_list s))); reflexivity.
  - apply (si_other_fields s); [reflexivity|exact S].
  - apply (si_other_fields s); [|exact S]. unfold start_timer.
    destruct (running s); [reflexivity|].
    destruct (selection s); [|reflexivity].
    destruct (select_project_id _ _); reflexivity.
  - unfold stop_timer. destruct (active_project_id s) as [pid|] eqn:Ha;
      [|exact S].
    destruct (running s); [|exact S].
    destruct (start_time s) as [started|]; [|exact S].
    pose proof (inv_active s I pid Ha) as Hp.
    pose proof (si_insert_entry s pid (fromtimestamp started)
                  (fromtimestamp now) (py_int (now - started)) (note_entry s)
                  S Hp) as S1.
    pose proof (inv_insert_entry s pid (fromtimestamp started)
                  (fromtimestamp now) (py_int (now - started)) (note_entry s)
                  I) as I1.
    destruct f as [|rb|rb]; simpl.
    + eapply si_other_fields; [|apply (si_commit _ I1 S1)]. reflexivity.
    + apply si_after_failure; assumption.
    + apply si_after_failure; assumption.
  - apply (si_other_fields s); [|exact S]. unfold update_timer.
    destruct (truthy_float (start_time s)); [|reflexivity].
    destruct (start_time s); reflexivity.
  - exact S.
  - apply (si_other_fields s); [|exact S]. unfold export_csv.
    destruct (truthy_str file); reflexivity.
  - apply si_startup; assumption.
Qed.

Lemma fresh_store_inv : store_inv fresh.
Proof. constructor; simpl; constructor. Qed.

Lemma run_store_inv (es : list event) : forall s,
  app_inv s -> store_inv s -> store_inv (snd (run s es)).
Proof.
  induction es as [|e es IH]; intros s I S; [exact S|].
  simpl. pose proof (step_inv e s I) as I1.
  pose proof (step_store_inv e s I S) as S1.
  destruct (step e s) as [o s1]. simpl in I1, S1.
  specialize (IH s1 I1 S1). destruct (run s1 es) as [log s2]. exact IH.
Qed.

Lemma store_inv_keys (s : app) :
  app_inv s -> store_inv s ->
  keys_unique (tables (conn s)) /\ keys_unique (committed (conn s)).
Proof.
  intros I S.
  assert (K : forall t, store_inv t -> keys_unique (tables (conn t))).
  { intros t [A B C D]. repeat split;
      [apply sorted_lt_nodup; exact A|exact B|apply sorted_lt_nodup; exact C]. }
  split; [apply K; exact S|].
  apply (K (after_failure true s)). apply si_after_failure; assumption.
Qed.

(** X7: in every run from a fresh store, whatever fails on the way, the
    keys stay keys: no two projects have the same id or the same name, no
    two entries have the same id, and every project id is positive; this
    holds of the tables the connection sees and of the tables last
    committed. *)
Theorem run_keeps_keys_unique :
  forall (es : list event),
    keys_unique (tables (conn (snd (run fresh es))))
    /\ keys_unique (committed (conn (snd (run fresh es))))
    /\ Forall (fun p => 0 < p_id p)
              (projects (tables (conn (snd (run fresh es))))).
Proof.
  intros es.
  pose proof (run_inv es fresh fresh_inv) as I.
  pose proof (run_store_inv es fresh fresh_inv fresh_store_inv) as S.
  destruct (store_inv_keys _ I S) as [K1 K2].
  split; [exact K1|]. split; [exact K2|]. exact (inv_ids _ I).
Qed.

Lemma filter_absent_id (ps : list project) (id : Z) :
  ~ In id (map p_id ps) -> filter (fun q => p_id q =? id) ps = [].
Proof.
  induction ps as [|r ps IH]; intros H; [reflexivity|]. simpl.
  destruct (Z.eqb_spec (p_id r) id) as [E|E].
  - exfalso. apply H. left. exact E.
  - apply IH. intros Hin. apply H. right. exact Hin.
Qed.

Lemma filter_unique_id (ps : list project) (p : project) :
  NoDup (map p_id ps) -> In p ps ->
  filter (fun q => p_id q =? p_id p) ps = [p].
Proof.
  induction ps as [|q ps IH]; intros N H; [contradiction|].
  simpl in N. inversion N as [|? ? Hq N']; subst. simpl.
  destruct H as [E|H].
  - subst q. rewrite Z.eqb_refl. f_equal. apply filter_absent_id. exact Hq.
  - destruct (Z.eqb_spec (p_id q) (p_id p)) as [E|E].
    + exfalso. apply Hq. rewrite E. apply in_map. exact H.
    + apply IH; assumption.
Qed.

Lemma join_one_row_each (ps : list project) (es : list entry) :
  NoDup (map p_id ps) ->
  Forall (fun e => exists p, In p ps /\ p_id p = e_project_id e) es ->
  map joined_fields (join_entries_projects (mk_db ps es)) = map entry_fields es.
Proof.
  intros N F. unfold join_entries_projects. simpl.
  induction F as [|e es [p [Hp Hid]] F IH]; [reflexivity|].
  simpl. rewrite map_app, IH. rewrite <- Hid.
  rewrite (filter_unique_id ps p N Hp). reflexivity.
Qed.

(** X8: in every run from a fresh store every entry belongs to a project
    of the table, so the join loses and repeats nothing: the rows of the
    export are the entries, one row each and in the order of the table,
    with the start, end, duration and note of the entry; the listing has
    the same rows, reordered. *)
Theorem run_lists_every_entry_once :
  forall (es : list event),
    let d := tables (conn (snd (run fresh es))) in
    Forall (fun e => has_project d (e_project_id e)) (entries d)
    /\ map joined_fields (export_rows d) = map entry_fields (entries d)
    /\ Permutation (map joined_fields (list_entries d))
                   (map entry_fields (entries d))
    /\ List.length (list_entries d) = List.length (entries d).
Proof.
  intros es d.
  pose proof (run_inv es fresh fresh_inv) as I.
  pose proof (run_store_inv es fresh fresh_inv fresh_store_inv) as S.
  fold d in I, S.
  assert (F : Forall (fun e => has_project d (e_project_id e)) (entries d)).
  { eapply Forall_impl; [|exact (si_entries _ S)].
    intros e He. apply (has_project_tables _ _ I He). }
  assert (J : map joined_fields (export_rows d) = map entry_fields (entries d)).
  { unfold export_rows. destruct d as [ps en] eqn:Ed.
    apply join_one_row_each.
    - apply sorted_lt_nodup.
      pose proof (si_project_ids _ S) as A. unfold d in Ed. rewrite Ed in A. exact A.
    - exact F. }
  assert (P : Permutation (map joined_fields (list_entries d))
                          (map entry_fields (entries d))).
  { rewrite <- J. apply Permutation_map. apply Permutation_sym.
    apply order_by_start_desc_perm. }
  split; [exact F|]. split; [exact J|]. split; [exact P|].
  apply Permutation_length in P. rewrite !length_map in P. exact P.
Qed.

(** ** What a run never does *)

Lemma inv_lookup_succeeds (s : app) (i : nat) :
  app_inv s -> selection s = Some i ->
  exists p,
    In p (projects (tables (conn s)))
    /\ p_name p = nth i (project_list s) EmptyString
    /\ select_project_id (tables (conn s))
         (nth i (project_list s) EmptyString) = Some (p_id p).
Proof.
  intros I Hsel.
  pose proof (inv_selection s I i Hsel) as Hlt.
  pose proof (inv_list s I _ (nth_In (project_list s) EmptyString Hlt))
    as [p [Hp Hn]].
  destruct (inv_projects s I) as [pend E].
  destruct (find_present (fun q => String.eqb (p_name q)
                                     (nth i (project_list s) EmptyString))
              (projects (committed (conn s))) p Hp) as [y Hy].
  { rewrite Hn. apply String.eqb_refl. }
  exists y. unfold select_project_id. rewrite E.
  rewrite (find_app_left _ _ pend y Hy).
  apply find_some in Hy. destruct Hy as [Hin Hy]. apply String.eqb_eq in Hy.
  split; [apply in_or_app; left; exact Hin|]. split; [exact Hy|reflexivity].
Qed.


(** X10: in every run from a fresh store, with no timer running and a
    line of the Listbox selected, [start_timer] goes through: the session
    is the id of the one project that has the selected name, together
    with the clock reading, a timer is then running, and nothing else of
    the object changes. *)
Theorem run_start_goes_through :
  forall (es : list event) (now : Q) (i : nat),
    let s := snd (run fresh es) in
    running s = false ->
    selection s = Some i ->
    exists p,
      In p (projects (tables (conn s)))
      /\ p_name p = nth i (project_list s) EmptyString
      /\ (forall q, In q (projects (tables (conn s))) ->
                    p_name q = p_name p -> q = p)
      /\ start_timer now s =
         (Returned, set_session (Some (p_id p)) (Some now) s)
      /\ running (snd (start_timer now s)) = true.
Proof.
  intros es now i s Hr Hsel.
  pose proof (run_inv es fresh fresh_inv) as I.
  pose proof (run_store_inv es fresh fresh_inv fresh_store_inv) as S.
  fold s in I, S.
  destruct (inv_lookup_succeeds s i I Hsel) as [p [Hp [Hn H]]].
  assert (E : start_timer now s =
              (Returned, set_session (Some (p_id p)) (Some now) s)).
  { unfold start_timer. rewrite Hr, Hsel, H. reflexivity. }
  exists p. split; [exact Hp|]. split; [exact Hn|]. split; [|split; [exact E|]].
  - intros q Hq Hqn. pose proof (si_names s S) as N.
    clear - Hp Hq Hqn N.
    induction (projects (tables (conn s))) as [|r l IH]; [contradiction|].
    simpl in N. inversion N as [|? ? Hr N']; subst.
    destruct Hp as [Ep|Hp], Hq as [Eq|Hq].
    + congruence.
    + subst r. exfalso. apply Hr. rewrite <- Hqn. apply in_map. exact Hq.
    + subst r. exfalso. apply Hr. rewrite Hqn. apply in_map. exact Hp.
    + apply IH; assumption.
  - rewrite E. simpl. unfold running. simpl.
    pose proof (inv_ids s I) as Hids. rewrite Forall_forall in Hids.
    specialize (Hids p Hp). destruct (Z.eqb_spec (p_id p) 0); [lia|reflexivity].
Qed.

(** ** Projects that do not exist *)



(** ** Totals and the entries behind them *)

Lemma sum_durations_filter_le (p q : entry -> bool) (l : list entry) :
  Forall (fun e => 0 <= e_duration e) l ->
  (forall e, p e = true -> q e = true) ->
  0 <= sum_durations (filter p l) <= sum_durations (filter q l).
Proof.
  intros F H. induction F as [|e l He F IH]; [simpl; unfold sum_durations; simpl; lia|].
  simpl. specialize (H e).
  destruct (p e) eqn:P.
  - rewrite (H eq_refl). unfold sum_durations in *. simpl. lia.
  - destruct (q e); unfold sum_durations in *; simpl; lia.
Qed.

(** X11: when no entry has a negative duration, the total of the day is
    not negative and is at most the total of the week: every entry of
    today is an entry of this week, since [week_start] is never after
    today. *)
Theorem daily_total_within_weekly :
  forall (d : db) (today : date),
    Forall (fun e => 0 <= e_duration e) (entries d) ->
    0 <= daily_total d today <= weekly_total d today.
Proof.
  intros d today F. rewrite daily_total_sum, weekly_total_sum.
  apply sum_durations_filter_le; [exact F|].
  intros e H. unfold starts_on in H. unfold starts_since.
  apply Z.eqb_eq in H. rewrite H. apply Z.leb_le.
  destruct (week_start_monday today) as [_ B]. lia.
Qed.

Lemma sum_durations_filter_one (p : entry -> bool) (e : entry) :
  sum_durations (filter p [e]) = if p e then e_duration e else 0.
Proof.
  simpl. destruct (p e); unfold sum_durations; simpl; lia.
Qed.

(** X12: a stop that goes through adds the recorded duration to the total
    of the day on which the session started and to the weekly total of
    every week that starts on or before that day, and to no other total;
    a call of [start_timer], whether it goes through or not, changes no
    total of any day, so a running timer is not counted. *)
Theorem stop_adds_duration_to_totals :
  forall (now started : Q) (project_id : Z) (s : app) (today : date),
    active_project_id s = Some project_id ->
    running s = true ->
    start_time s = Some started ->
    let d := tables (conn s) in
    let d' := tables (conn (snd (stop_timer now NoFault s))) in
    let day := dt_date (fromtimestamp started) in
    daily_total d' today =
      daily_total d today + (if day =? today then py_int (now - started) else 0)
    /\ weekly_total d' today =
      weekly_total d today +
      (if week_start today <=? day then py_int (now - started) else 0)
    /\ (forall (t : Q) (s0 : app) (day0 : date),
          daily_total (tables (conn (snd (start_timer t s0)))) day0
          = daily_total (tables (conn s0)) day0
          /\ weekly_total (tables (conn (snd (start_timer t s0)))) day0
             = weekly_total (tables (conn s0)) day0).
Proof.
  intros now started project_id s today Ha Hr Hs d d' day.
  assert (E : entries d' = entries d ++
                [mk_entry (next_rowid (map e_id (entries d))) project_id
                          (fromtimestamp started) (fromtimestamp now)
                          (py_int (now - started)) (note_entry s)]).
  { subst d' d. unfold stop_timer. rewrite Ha, Hr, Hs. reflexivity. }
  split; [|split].
  - rewrite !daily_total_sum, E, filter_app, sum_durations_app. f_equal.
    rewrite sum_durations_filter_one. reflexivity.
  - rewrite !weekly_total_sum, E, filter_app, sum_durations_app. f_equal.
    rewrite sum_durations_filter_one. reflexivity.
  - intros t s0 day0.
    assert (C : tables (conn (snd (start_timer t s0))) = tables (conn s0)).
    { unfold start_timer. destruct (running s0); [reflexivity|].
      destruct (selection s0); [|reflexivity].
      destruct (select_project_id _ _); reflexivity. }
    rewrite C. split; reflexivity.
Qed.

(** ** Stops, retries and restarts *)

Lemma stop_timer_goes_through (now started : Q) (project_id : Z) (s : app) :
  active_project_id s = Some project_id ->
  running s = true ->
  start_time s = Some started ->
  fst (stop_timer now NoFault s) = Returned
  /\ entries (committed (conn (snd (stop_timer now NoFault s)))) =
     entries (tables (conn s)) ++
     [mk_entry (next_rowid (map e_id (entries (tables (conn s)))))
               project_id (fromtimestamp started) (fromtimestamp now)
               (py_int (now - started)) (note_entry s)].
Proof.
  intros Ha Hr Hs. unfold stop_timer. rewrite Ha, Hr, Hs. split; reflexivity.
Qed.

(** X13: a stop whose commit fails with the transaction left open keeps
    the session and the inserted row; stopping again then goes through
    and commits both rows, so the one session is stored twice, with the
    same project and start and the two durations.  When the failed commit
    rolled the transaction back, the second stop stores it once. *)
Theorem stop_retry_after_failed_commit :
  forall (now1 now2 started : Q) (project_id : Z) (s : app),
    active_project_id s = Some project_id ->
    running s = true ->
    start_time s = Some started ->
    let row id now :=
      mk_entry id project_id (fromtimestamp started) (fromtimestamp now)
               (py_int (now - started)) (note_entry s) in
    let id1 := next_rowid (map e_id (entries (tables (conn s)))) in
    let kept := snd (stop_timer now1 (CommitFails false) s) in
    let rolled := snd (stop_timer now1 (CommitFails true) s) in
    fst (stop_timer now2 NoFault kept) = Returned
    /\ entries (committed (conn (snd (stop_timer now2 NoFault kept)))) =
       entries (tables (conn s)) ++
       [ row id1 now1;
         row (next_rowid (map e_id (entries (tables (conn s))) ++ [id1])) now2 ]
    /\ entries (committed (conn (snd (stop_timer now2 NoFault rolled)))) =
       entries (committed (conn s)) ++
       [ row (next_rowid (map e_id (entries (committed (conn s))))) now2 ].
Proof.
  intros now1 now2 started project_id s Ha Hr Hs row id1 kept rolled.
  assert (Ek : kept =
               set_tables (snd (insert_entry (tables (conn s)) project_id
                                  (fromtimestamp started) (fromtimestamp now1)
                                  (py_int (now1 - started)) (note_entry s))) s).
  { subst kept. unfold stop_timer. rewrite Ha, Hr, Hs. reflexivity. }
  assert (El : rolled =
               set_conn (mk_connection (committed (conn s))
                                       (committed (conn s))) s).
  { subst rolled. unfold stop_timer. rewrite Ha, Hr, Hs. reflexivity. }
  destruct (stop_timer_goes_through now2 started project_id kept) as [G1 G2];
    [rewrite Ek; exact Ha|rewrite Ek; exact Hr|rewrite Ek; exact Hs|].
  destruct (stop_timer_goes_through now2 started project_id rolled) as [_ G3];
    [rewrite El; exact Ha|rewrite El; exact Hr|rewrite El; exact Hs|].
  split; [rewrite G1 at 1; reflexivity|]. split.
  - rewrite G2, Ek. simpl. rewrite <- app_assoc, map_app. reflexivity.
  - rewrite G3, El. reflexivity.
Qed.

Lemma order_by_start_desc_newest (l : list joined) (r : joined) :
  Forall (fun x => dt_leb (j_start r) (j_start x) = false) l ->
  order_by_start_desc (l ++ [r]) = r :: order_by_start_desc l.
Proof.
  induction 1 as [|x l Hx F IH]; [reflexivity|].
  simpl. rewrite IH. simpl. rewrite Hx. reflexivity.
Qed.

(** X15: a stop that goes through puts its entry on top.  When the
    project of the session is a row of the table with an id of its own
    and every row listed starts before the session did, the listing
    after the stop is the new row followed by the listing before, and
    the Treeview shows just that, durations as [format_time] writes
    them. *)
Theorem stop_lists_new_entry_first :
  forall (now started : Q) (p : project) (s : app),
    active_project_id s = Some (p_id p) ->
    running s = true ->
    start_time s = Some started ->
    In p (projects (tables (conn s))) ->
    NoDup (map p_id (projects (tables (conn s)))) ->
    Forall (fun r => dt_leb (fromtimestamp started) (j_start r) = false)
           (list_entries (tables (conn s))) ->
    let s' := snd (stop_timer now NoFault s) in
    let new_row :=
      mk_joined (p_name p) (fromtimestamp started) (fromtimestamp now)
                (py_int (now - started)) (note_entry s) in
    list_entries (tables (conn s')) =
      new_row :: list_entries (tables (conn s))
    /\ tree s' =
      tree_row_of new_row :: map tree_row_of (list_entries (tables (conn s)))
    /\ note_entry s' = EmptyString
    /\ timer_label s' = format_time 0.
Proof.
  intros now started p s Ha Hr Hs Hp N F s' new_row.
  assert (J : join_entries_projects (tables (conn s')) =
              join_entries_projects (tables (conn s)) ++ [new_row]).
  { subst s'. unfold stop_timer. rewrite Ha, Hr, Hs. simpl.
    unfold join_entries_projects. simpl.
    rewrite flat_map_app. simpl.
    rewrite (filter_unique_id _ p N Hp). rewrite app_nil_r. reflexivity. }
  assert (L : list_entries (tables (conn s')) =
              new_row :: list_entries (tables (conn s))).
  { unfold list_entries. rewrite J. apply order_by_start_desc_newest.
    apply (Permutation_Forall
             (Permutation_sym
                (order_by_start_desc_perm
                   (join_entries_projects (tables (conn s)))))).
    exact F. }
  split; [exact L|]. split; [|split].
  - assert (T : tree s' = map tree_row_of (list_entries (tables (conn s')))).
    { subst s'. unfold stop_timer. rewrite Ha, Hr, Hs. reflexivity. }
    rewrite T, L. reflexivity.
  - subst s'. unfold stop_timer. rewrite Ha, Hr, Hs. reflexivity.
  - subst s'. unfold stop_timer. rewrite Ha, Hr, Hs. reflexivity.
Qed.

(** ** What a callback leaves alone *)

Lemma after_failure_active (rb : bool) (s : app) :
  active_project_id (after_failure rb s) = active_project_id s.
Proof. destruct rb; reflexivity. Qed.

Lemma after_failure_start (rb : bool) (s : app) :
  start_time (after_failure rb s) = start_time s.
Proof. destruct rb; reflexivity. Qed.

Lemma after_failure_files (rb : bool) (s : app) :
  files (after_failure rb s) = files s.
Proof. destruct rb; reflexivity. Qed.

(** X16: each callback keeps to its part of the object.  Only
    [add_project], [stop_timer] and a restart can change the tables or
    what is committed; only [start_timer], [stop_timer] and a restart can
    change the session, so adding a project, showing the totals,
    exporting, a tick, a selection or typing a note never starts, stops
    or moves a timer, failing or not; and only [export_csv] writes a
    file. *)
Theorem callbacks_keep_to_their_part :
  forall (e : event) (s : app),
    (writes_store e = false -> conn (snd (step e s)) = conn s)
    /\ (moves_session e = false ->
        active_project_id (snd (step e s)) = active_project_id s
        /\ start_time (snd (step e s)) = start_time s)
    /\ (files (snd (step e s)) = files s
        \/ exists file text, e = ExportCsv (Some file)
                             /\ files (snd (step e s)) = (file, text) :: files s).
Proof.
  intros e s.
  destruct e as [answer f|i|note|now|now f|now|today|file|]; simpl.
  - split; [discriminate|]. unfold add_project.
    destruct (truthy_str answer) as [name|]; [|repeat split; left; reflexivity].
    destruct (insert_project (tables (conn s)) name) as [d'|];
      destruct f as [|rb|rb]; simpl;
      repeat split; try left;
      rewrite ?after_failure_active, ?after_failure_start,
        ?after_failure_files; reflexivity.
  - unfold select_project.
    destruct (Nat.ltb_spec i (List.length (project_list s)));
      repeat split; left; reflexivity.
  - repeat split. left. reflexivity.
  - unfold start_timer. destruct (running s); [repeat split; try discriminate; left; reflexivity|].
    destruct (selection s); [|repeat split; try discriminate; left; reflexivity].
    destruct (select_project_id _ _);
      repeat split; try discriminate; left; reflexivity.
  - split; [discriminate|]. split; [discriminate|]. left.
    unfold stop_timer. destruct (active_project_id s); [|reflexivity].
    destruct (running s); [|reflexivity].
    destruct (start_time s); [|reflexivity].
    destruct f as [|rb|rb]; simpl; rewrite ?after_failure_files; reflexivity.
  - assert (U : exists l, snd (update_timer now s) = set_timer_label l s).
    { unfold update_timer. destruct (truthy_float (start_time s));
        [destruct (start_time s)|]; try (eexists; reflexivity);
        exists (timer_label s); destruct s; reflexivity. }
    destruct U as [l U]. rewrite U. repeat split. left. reflexivity.
  - repeat split. left. reflexivity.
  - unfold export_csv. destruct file as [[|c file]|]; simpl.
    + repeat split. left. reflexivity.
    + repeat split. right. eexists. eexists. split; reflexivity.
    + repeat split. left. reflexivity.
  - split; [discriminate|]. split; [discriminate|]. left. reflexivity.
Qed.

(** ** The tick *)

Lemma same_but_label_fields (s s' : app) :
  same_but_label s s' -> s = set_timer_label (timer_label s) s'.
Proof.
  unfold same_but_label, set_timer_label. destruct s, s'. simpl.
  intros H. inversion H; subst. reflexivity.
Qed.

Lemma same_but_label_set (l : string) (s : app) :
  same_but_label (set_timer_label l s) s.
Proof. reflexivity. Qed.

Ltac break_match :=
  match goal with
  | |- context [match ?x with _ => _ end] => destruct x eqn:?
  end.

Lemma step_ignores_label (e : event) (l : string) (s : app) :
  fst (step e (set_timer_label l s)) = fst (step e s)
  /\ same_but_label (snd (step e (set_timer_label l s))) (snd (step e s)).
Proof.
  destruct e as [answer f|i|note|now|now f|now|today|file|];
    unfold step, add_project, start_timer, stop_timer, update_timer,
      show_totals, export_csv, select_project, running, after_failure,
      same_but_label;
    simpl;
    repeat (break_match; simpl);
    split; reflexivity.
Qed.

Lemma step_same_but_label (e : event) (s s' : app) :
  same_but_label s s' ->
  fst (step e s) = fst (step e s')
  /\ same_but_label (snd (step e s)) (snd (step e s')).
Proof.
  intros H. rewrite (same_but_label_fields s s' H).
  apply step_ignores_label.
Qed.

Lemma update_timer_same_but_label (now : Q) (s : app) :
  same_but_label (snd (update_timer now s)) s.
Proof.
  unfold update_timer. destruct (truthy_float (start_time s)); [|reflexivity].
  destruct (start_time s); reflexivity.
Qed.

Lemma run_without_ticks (es : list event) : forall s s',
  same_but_label s s' ->
  fst (run s' (filter not_tick es)) =
    filter (fun eo => not_tick (fst eo)) (fst (run s es))
  /\ same_but_label (snd (run s es)) (snd (run s' (filter not_tick es))).
Proof.
  induction es as [|e es IH]; intros s s' H; [split; [reflexivity|exact H]|].
  destruct (not_tick e) eqn:T.
  - destruct (step_same_but_label e s s' H) as [Ho Hs].
    simpl. rewrite T. simpl.
    destruct (step e s) as [o s1]. destruct (step e s') as [o' s1'].
    simpl in Ho, Hs. subst o'.
    destruct (IH s1 s1' Hs) as [L R].
    destruct (run s1 es) as [log s2].
    destruct (run s1' (filter not_tick es)) as [log' s2'].
    simpl in *. rewrite T. split; [f_equal; exact L|exact R].
  - destruct e; try discriminate. simpl.
    pose proof (update_timer_same_but_label now s) as U.
    destruct (update_timer now s) as [o s1]. simpl in U.
    assert (H1 : same_but_label s1 s')
      by (unfold same_but_label in *; congruence).
    destruct (IH s1 s' H1) as [L R].
    destruct (run s1 es) as [log s2]. simpl in *. split; assumption.
Qed.

(** X17: the tick of [update_timer] is display only.  Leaving every
    tick out of a run changes no outcome of any other callback, and the
    object at the end is the same but for the text of the timer label:
    store, session, Listbox, note, Treeview and files are equal. *)
Theorem ticks_only_move_the_label :
  forall (es : list event) (s : app),
    fst (run s (filter not_tick es)) =
      filter (fun eo => not_tick (fst eo)) (fst (run s es))
    /\ same_but_label (snd (run s es)) (snd (run s (filter not_tick es)))
    /\ conn (snd (run s es)) = conn (snd (run s (filter not_tick es)))
    /\ active_project_id (snd (run s es)) =
       active_project_id (snd (run s (filter not_tick es)))
    /\ start_time (snd (run s es)) =
       start_time (snd (run s (filter not_tick es))).
Proof.
  intros es s.
  destruct (run_without_ticks es s s eq_refl) as [L R].
  split; [exact L|]. split; [exact R|].
  rewrite (same_but_label_fields _ _ R). repeat split.
Qed.

(** ** The window and the store *)

Lemma join_new_project (ps : list project) (es : list entry) (name : string) :
  Forall (fun e => exists p, In p ps /\ p_id p = e_project_id e) es ->
  join_entries_projects
    (mk_db (ps ++ [mk_project (next_rowid (map p_id ps)) name]) es) =
  join_entries_projects (mk_db ps es).
Proof.
  intros F. unfold join_entries_projects. simpl.
  induction F as [|e es [p [Hp Hid]] F IH]; [reflexivity|].
  simpl. rewrite IH. f_equal. rewrite filter_app. simpl.
  pose proof (next_rowid_above (map p_id ps)) as A.
  rewrite Forall_forall in A. specialize (A (p_id p) (in_map p_id ps p Hp)).
  destruct (Z.eqb_spec (next_rowid (map p_id ps)) (e_project_id e)); [lia|].
  rewrite app_nil_r. reflexivity.
Qed.

Lemma step_display_in_sync (e : event) (s : app) :
  app_inv s -> store_inv s -> faultless e = true ->
  display_in_sync s -> display_in_sync (snd (step e s)).
Proof.
  intros I S Hf [C [L T]].
  destruct e as [answer f|i|note|now|now f|now|today|file|]; simpl.
  - unfold add_project. destruct (truthy_str answer) as [name|];
      [|repeat split; assumption].
    destruct f; try discriminate.
    destruct (insert_project (tables (conn s)) name) as [d'|] eqn:Hi;
      [|repeat split; assumption].
    simpl. split; [reflexivity|]. split; [reflexivity|].
    unfold insert_project in Hi. destruct (existsb _ _); [discriminate|].
    inversion Hi; subst d'. simpl. rewrite T. f_equal. unfold list_entries.
    f_equal. symmetry.
    pose proof (si_entries s S) as F. rewrite C in F. revert F.
    destruct (tables (conn s)) as [ps en]. simpl. intros F.
    apply join_new_project. exact F.
  - unfold select_project.
    destruct (Nat.ltb_spec i (List.length (project_list s)));
      repeat split; assumption.
  - repeat split; assumption.
  - unfold start_timer. destruct (running s); [repeat split; assumption|].
    destruct (selection s); [|repeat split; assumption].
    destruct (select_project_id _ _); repeat split; assumption.
  - unfold stop_timer. destruct (active_project_id s) as [pid|];
      [|repeat split; assumption].
    destruct (running s); [|repeat split; assumption].
    destruct (start_time s) as [started|]; [|repeat split; assumption].
    destruct f; try discriminate. simpl.
    split; [reflexivity|]. split; [exact L|reflexivity].
  - unfold update_timer. destruct (truthy_float (start_time s));
      [|repeat split; assumption].
    destruct (start_time s); repeat split; assumption.
  - repeat split; assumption.
  - unfold export_csv. destruct (truthy_str file); repeat split; assumption.
  - simpl. repeat split.
Qed.

(** X18: in a run from a fresh store in which the store never fails, the
    window always shows the store: nothing is left uncommitted, the
    Listbox holds exactly the names of the projects in ascending order and
    the Treeview exactly the listing, latest first, although
    [add_project] does not refresh the Treeview and [stop_timer] does
    not refresh the Listbox. *)
Theorem faultless_run_keeps_display_in_sync :
  forall (es : list event),
    forallb faultless es = true ->
    display_in_sync (snd (run fresh es)).
Proof.
  intros es.
  assert (G : forall s, app_inv s -> store_inv s -> display_in_sync s ->
                        forallb faultless es = true ->
                        display_in_sync (snd (run s es))).
  { induction es as [|e es IH]; intros s I S D H; [exact D|].
    simpl in H. apply andb_true_iff in H. destruct H as [He Hes].
    pose proof (step_inv e s I) as I1.
    pose proof (step_store_inv e s I S) as S1.
    pose proof (step_display_in_sync e s I S He D) as D1.
    simpl. destruct (step e s) as [o s1]. simpl in I1, S1, D1.
    specialize (IH s1 I1 S1 D1 Hes). destruct (run s1 es) as [log s2].
    exact IH. }
  apply G; [apply fresh_inv|apply fresh_store_inv|repeat split].
Qed.

(** ** Durations *)

Lemma durations_inv_later (t t' : Q) (s : app) :
  (t <= t')%Q -> durations_inv t s -> durations_inv t' s.
Proof.
  intros H [A [B C]]. split; [|split; assumption].
  intros started Hs. eapply Qle_trans; [apply A; exact Hs|exact H].
Qed.

Lemma durations_inv_conn (t : Q) (s s' : app) :
  conn s' = conn s -> start_time s' = start_time s ->
  durations_inv t s -> durations_inv t s'.
Proof. intros Hc Hs [A [B C]]. unfold durations_inv. rewrite Hc, Hs. auto. Qed.

Lemma durations_inv_after_failure (rb : bool) (t : Q) (s : app) :
  durations_inv t s -> durations_inv t (after_failure rb s).
Proof.
  intros [A [B C]]. destruct rb; [|repeat split; assumption].
  repeat split; assumption.
Qed.

Lemma step_durations_inv (e : event) (t : Q) (s : app) :
  durations_inv t s ->
  match e with
  | StartTimer now | StopTimer now _ =>
      (t <= now)%Q -> durations_inv now (snd (step e s))
  | _ => durations_inv t (snd (step e s))
  end.
Proof.
  intros D. pose proof D as [A [B C]].
  destruct e as [answer f|i|note|now|now f|now|today|file|]; simpl.
  - unfold add_project. destruct (truthy_str answer) as [name|]; [|exact D].
    unfold insert_project. destruct (existsb _ _).
    + destruct f; try exact D. apply durations_inv_after_failure. exact D.
    + destruct f; simpl.
      * repeat split; assumption.
      * apply durations_inv_after_failure. exact D.
      * apply durations_inv_after_failure. repeat split; assumption.
  - apply (durations_inv_conn t s); [| |exact D]; unfold select_project;
      destruct (Nat.ltb_spec i (List.length (project_list s))); reflexivity.
  - apply (durations_inv_conn t s); [reflexivity|reflexivity|exact D].
  - intros Ht. unfold start_timer.
    destruct (running s); [apply (durations_inv_later t); assumption|].
    destruct (selection s); [|apply (durations_inv_later t); assumption].
    destruct (select_project_id _ _);
      [|apply (durations_inv_later t); assumption].
    simpl. split; [|split; assumption].
    intros started Hs. inversion Hs; subst. apply Qle_refl.
  - intros Ht. unfold stop_timer.
    destruct (active_project_id s) as [pid|];
      [|apply (durations_inv_later t); assumption].
    destruct (running s); [|apply (durations_inv_later t); assumption].
    destruct (start_time s) as [started|] eqn:Hs;
      [|apply (durations_inv_later t); assumption].
    assert (N : 0 <= py_int (now - started)).
    { apply py_int_floor. apply (proj1 (Qle_minus_iff started now)).
      eapply Qle_trans; [apply A; reflexivity|exact Ht]. }
    assert (B' : Forall (fun e => 0 <= e_duration e)
                   (entries (tables (conn s)) ++
                    [mk_entry (next_rowid (map e_id (entries (tables (conn s)))))
                       pid (fromtimestamp started) (fromtimestamp now)
                       (py_int (now - started)) (note_entry s)])).
    { apply Forall_app. split; [exact B|]. constructor; [exact N|constructor]. }
    destruct f as [|rb|rb]; simpl.
    + split; [discriminate|]. split; exact B'.
    + apply durations_inv_after_failure. apply (durations_inv_later t); [exact Ht|].
      repeat split; try assumption. intros st Hst. apply A. congruence.
    + apply durations_inv_after_failure. split; [|split; [exact B'|exact C]].
      simpl. intros st Hst. eapply Qle_trans; [apply A; congruence|exact Ht].
  - pose proof (update_timer_same_but_label now s) as U.
    apply same_but_label_fields in U.
    apply (durations_inv_conn t s); [rewrite U| rewrite U|exact D]; reflexivity.
  - exact D.
  - apply (durations_inv_conn t s); [| |exact D]; unfold export_csv;
      destruct (truthy_str file); reflexivity.
  - split; [discriminate|]. split; exact C.
Qed.

Lemma run_durations_inv (es : list event) : forall t s,
  durations_inv t s -> chronological t es ->
  exists t', durations_inv t' (snd (run s es)).
Proof.
  induction es as [|e es IH]; intros t s D H; [exists t; exact D|].
  pose proof (step_durations_inv e t s D) as P.
  simpl. destruct (step e s) as [o s1] eqn:E. simpl in P.
  assert (X : exists t1, durations_inv t1 s1 /\ chronological t1 es).
  { destruct e as [answer f|i|note|now|now f|now|today|file|]; simpl in H;
      try (exists t; split; [exact P|exact H]).
    - destruct H as [Ht Hes]. exists now. split; [exact (P Ht)|exact Hes].
    - destruct H as [Ht Hes]. exists now. split; [exact (P Ht)|exact Hes]. }
  destruct X as [t1 [D1 H1]]. destruct (IH t1 s1 D1 H1) as [t' D'].
  destruct (run s1 es) as [log s2]. exists t'. exact D'.
Qed.

(** X19: in a run from a fresh store in which the clock readings of the
    starts and stops never go back, no entry has a negative duration,
    whatever fails on the way; so the daily total is never negative and
    never above the weekly total. *)
Theorem chronological_run_durations_not_negative :
  forall (t : Q) (es : list event) (today : date),
    chronological t es ->
    let d := tables (conn (snd (run fresh es))) in
    Forall (fun e => 0 <= e_duration e) (entries d)
    /\ 0 <= daily_total d today <= weekly_total d today.
Proof.
  intros t es today H d.
  assert (D0 : durations_inv t fresh)
    by (split; [discriminate|split; constructor]).
  destruct (run_durations_inv es t fresh D0 H) as [t' [_ [B _]]].
  fold d in B. split; [exact B|].
  rewrite daily_total_sum, weekly_total_sum.
  apply sum_durations_filter_le; [exact B|].
  intros e He. unfold starts_on in He. unfold starts_since.
  apply Z.eqb_eq in He. rewrite He. apply Z.leb_le.
  destruct (week_start_monday today) as [_ Bd]. lia.
Qed.

(** ** The week *)

Lemma week_start_of_offset (monday k : Z) :
  weekday monday = 0 -> 0 <= k <= 6 -> week_start (monday + k) = monday.
Proof.
  unfold week_start, minus_days, weekday. intros H Hk.
  apply Z.mod_divide in H; [|lia]. destruct H as [q Hq].
  replace (monday + k + 6) with (k + q * 7) by lia.
  rewrite Z_mod_plus_full, Z.mod_small by lia. lia.
Qed.

(** X14: the week of [show_totals] turns over on Monday and only then.
    On every day from [week_start] to the Sunday after it the week starts
    on the same Monday, so for one store the weekly total is the same on
    each of these days; seven days later the week starts seven days
    later. *)
Theorem week_turns_over_on_monday :
  forall (d : db) (today other : date),
    week_start today <= other <= week_start today + 6 ->
    week_start other = week_start today
    /\ weekly_total d other = weekly_total d today
    /\ week_start (today + 7) = week_start today + 7.
Proof.
  intros d today other H.
  destruct (week_start_monday today) as [Hm Hb].
  assert (E : week_start other = week_start today).
  { replace other with (week_start today + (other - week_start today)) by lia.
    apply week_start_of_offset; [exact Hm|lia]. }
  split; [exact E|]. split.
  - unfold weekly_total. rewrite E. reflexivity.
  - replace (today + 7) with (week_start today + 7 + (today - week_start today))
      by lia.
    apply week_start_of_offset; [|lia].
    unfold weekday in *. replace (week_start today + 7 + 6)
      with (week_start today + 6 + 1 * 7) by lia.
    rewrite Z_mod_plus_full. exact Hm.
Qed.

Lemma in_days_from (day x : date) (n : nat) :
  In x (days_from day n) <-> day <= x < day + Z.of_nat n.
Proof.
  revert day. induction n as [|n IH]; intros day; simpl; [lia|].
  rewrite IH. lia.
Qed.

Lemma sum_daily_one_entry (e : entry) (day : date) (n : nat) :
  fold_right Z.add 0
    (map (fun x => if starts_on x e then e_duration e else 0)
         (days_from day n)) =
  if (day <=? dt_date (e_start_time e))
     && (dt_date (e_start_time e) <? day + Z.of_nat n)
  then e_duration e else 0.
Proof.
  revert day. induction n as [|n IH]; intros day.
  - simpl. destruct (Z.leb_spec day (dt_date (e_start_time e)));
      destruct (Z.ltb_spec (dt_date (e_start_time e)) (day + 0));
      simpl; try reflexivity; lia.
  - simpl days_from. simpl map. simpl fold_right. rewrite IH.
    unfold starts_on.
    destruct (Z.eqb_spec (dt_date (e_start_time e)) day);
      destruct (Z.leb_spec day (dt_date (e_start_time e)));
      destruct (Z.leb_spec (day + 1) (dt_date (e_start_time e)));
      destruct (Z.ltb_spec (dt_date (e_start_time e)) (day + 1 + Z.of_nat n));
      destruct (Z.ltb_spec (dt_date (e_start_time e)) (day + Z.of_nat (S n)));
      simpl; lia.
Qed.

Lemma sum_daily_totals_span (ps : list project) (es : list entry)
      (day : date) (n : nat) :
  sum_daily_totals (mk_db ps es) (days_from day n) =
  sum_durations
    (filter (fun e => (day <=? dt_date (e_start_time e))
                      && (dt_date (e_start_time e) <? day + Z.of_nat n)) es).
Proof.
  unfold sum_daily_totals.
  induction es as [|e es IH].
  - simpl. induction (days_from day n) as [|x l IHl]; [reflexivity|].
    simpl. rewrite IHl. reflexivity.
  - assert (Split : forall l,
        fold_right Z.add 0 (map (daily_total (mk_db ps (e :: es))) l) =
        fold_right Z.add 0
          (map (fun x => if starts_on x e then e_duration e else 0) l)
        + fold_right Z.add 0 (map (daily_total (mk_db ps es)) l)).
    { induction l as [|x l IHl]; [reflexivity|].
      simpl map. simpl fold_right. rewrite IHl.
      rewrite !daily_total_sum. simpl.
      destruct (starts_on x e); unfold sum_durations; simpl; lia. }
    rewrite Split, IH, sum_daily_one_entry. simpl.
    destruct ((day <=? dt_date (e_start_time e))
              && (dt_date (e_start_time e) <? day + Z.of_nat n));
      unfold sum_durations; simpl; lia.
Qed.

(** X20: the weekly total is the daily totals of the week so far, added
    up, when no entry starts after the day of the query: the total of
    Monday, of Tuesday, and so on up to today. *)
Theorem weekly_total_is_sum_of_days :
  forall (d : db) (today : date),
    Forall (fun e => dt_date (e_start_time e) <= today) (entries d) ->
    weekly_total d today =
    sum_daily_totals d
      (days_from (week_start today) (S (Z.to_nat (weekday today)))).
Proof.
  intros [ps es] today F.
  destruct (week_start_monday today) as [_ Hb].
  assert (W : weekday today = today - week_start today)
    by (unfold week_start, minus_days; lia).
  rewrite sum_daily_totals_span, weekly_total_sum. cbn [entries]. f_equal.
  apply filter_ext_in. intros e He. cbn [entries] in F.
  rewrite Forall_forall in F. specialize (F e He).
  unfold starts_since.
  destruct (Z.leb_spec (week_start today) (dt_date (e_start_time e)));
    [|reflexivity].
  cbn [andb]. symmetry. apply Z.ltb_lt.
  rewrite Nat2Z.inj_succ, Z2Nat.id by lia. lia.
Qed.

End Tracker.

(** ** Worked runs *)

Lemma alpha_run :
  snd (run utc_fromtimestamp fresh alpha_events) = alpha_running.
Proof. reflexivity. Qed.

(** The scenario of the specification: 125 seconds on "Alpha". *)
Example alpha_125_seconds :
  let s := snd (stop_timer utc_fromtimestamp (t0 + 125) NoFault
                  (set_note_entry "wrote spec" alpha_running)) in
  hd_error (list_entries (tables (conn s))) =
  Some (mk_joined "Alpha" (mk_datetime 738888 32400000000)
                  (mk_datetime 738888 32525000000) 125 "wrote spec")
  /\ active_project_id s = None.
Proof. vm_compute. split; reflexivity. Qed.

Lemma single_active_timer_witness :
  active_project_id alpha_running <> None
  /\ start_timer (t0 + 60) alpha_running =
     (ShowWarning "Running" "Timer already running", alpha_running).
Proof.
  assert (H : active_project_id alpha_running <> None)
    by (vm_compute; discriminate).
  split; [exact H|].
  pose proof (single_active_timer utc_fromtimestamp alpha_events) as S.
  cbv zeta in S. rewrite alpha_run in S.
  exact (proj1 (proj2 S) (t0 + 60)%Q H).
Defined.

Lemma stop_keeps_session_on_failure_witness :
  CommitFails false <> NoFault
  /\ active_project_id
       (snd (stop_timer utc_fromtimestamp (t0 + 60) (CommitFails false)
               alpha_running)) = Some 1
  /\ start_time
       (snd (stop_timer utc_fromtimestamp (t0 + 60) (CommitFails false)
               alpha_running)) = Some t0.
Proof.
  assert (H : CommitFails false <> NoFault) by discriminate.
  split; [exact H|].
  destruct (stop_keeps_session_on_failure utc_fromtimestamp (t0 + 60)
              (CommitFails false) alpha_running H) as (Ha & Hs & _).
  split; [rewrite Ha|rewrite Hs]; reflexivity.
Defined.

Lemma stop_without_session_witness :
  running fresh = false
  /\ stop_timer utc_fromtimestamp t0 NoFault fresh = (EarlyReturn, fresh).
Proof.
  split; [reflexivity|].
  apply (stop_without_session utc_fromtimestamp t0 NoFault fresh).
  reflexivity.
Defined.


(** C5 as it is written fails for the fields of an entry.  The session
    starts a quarter of a microsecond after a whole second and stops at
    the next whole second: the two instants are stored one second apart
    and the duration stored with them is 0. *)
Lemma stored_difference_exceeds_duration :
  map snd (fst (run utc_fromtimestamp fresh drift_session)) =
    [Returned; Returned; Returned; Returned]
  /\ entries (committed (conn (snd (run utc_fromtimestamp fresh
                                      drift_session)))) =
     [ mk_entry 1 1 (mk_datetime 738888 32400000000)
                (mk_datetime 738888 32401000000) 0 EmptyString ]
  /\ forall e,
       In e (entries (committed (conn (snd (run utc_fromtimestamp fresh
                                             drift_session))))) ->
       e_duration e = 0
       /\ Qfloor (stored_seconds e) = 1
       /\ e_duration e <> Qfloor (stored_seconds e).
Proof.
  assert (E : entries (committed (conn (snd (run utc_fromtimestamp fresh
                                              drift_session)))) =
              [ mk_entry 1 1 (mk_datetime 738888 32400000000)
                         (mk_datetime 738888 32401000000) 0 EmptyString ])
    by (vm_compute; reflexivity).
  split; [vm_compute; reflexivity|]. split; [exact E|].
  intros e He. rewrite E in He. destruct He as [He|[]]. subst e.
  split; [reflexivity|]. split; [reflexivity|]. discriminate.
Qed.

Lemma stop_creates_immutable_entry_witness :
  (active_project_id alpha_running = Some 1
   /\ running alpha_running = true
   /\ start_time alpha_running = Some t0
   /\ (t0 <= t0 + 125)%Q
   /\ utc_fromtimestamp t0 = zone_fromtimestamp 0 t0
   /\ utc_fromtimestamp (t0 + 125) = zone_fromtimestamp 0 (t0 + 125))
  /\ entries (committed (conn (snd (stop_timer utc_fromtimestamp (t0 + 125)
                                      NoFault alpha_running)))) =
     [ mk_entry 1 1 (mk_datetime 738888 32400000000)
                (mk_datetime 738888 32525000000) 125 EmptyString ]
  /\ Forall (fun e => (125 <= stored_seconds e <= 126)%Q)
            (entries (committed (conn (snd (stop_timer utc_fromtimestamp
                                              (t0 + 125) NoFault
                                              alpha_running))))).
Proof.
  assert (Ha : active_project_id alpha_running = Some 1) by reflexivity.
  assert (Hr : running alpha_running = true) by reflexivity.
  assert (Hs : start_time alpha_running = Some t0) by reflexivity.
  assert (Hle : (t0 <= t0 + 125)%Q) by (unfold Qle; simpl; lia).
  assert (Z1 : utc_fromtimestamp t0 = zone_fromtimestamp 0 t0) by reflexivity.
  assert (Z2 : utc_fromtimestamp (t0 + 125) = zone_fromtimestamp 0 (t0 + 125))
    by reflexivity.
  split; [repeat split; assumption|].
  destruct (stop_creates_immutable_entry utc_fromtimestamp (t0 + 125) t0 1
              alpha_running Ha Hr Hs) as (_ & He & Hd & _).
  split; [rewrite He; reflexivity|].
  destruct (Hd Hle) as (_ & _ & Hz).
  rewrite He. constructor; [exact (Hz 0 Z1 Z2)|constructor].
Defined.


(** C7 as it is written fails on an entry that starts after the query
    day: it is outside the span from Monday to the query, and the weekly
    total counts it. *)
Lemma weekly_total_counts_later_entry :
  in_week_to_date wednesday (entry_on 1 1 (wednesday + 1) 60) = false
  /\ weekly_total (mk_db [mk_project 1 "Alpha"]
                         [entry_on 1 1 (wednesday + 1) 60]) wednesday = 60
  /\ weekly_total (mk_db [mk_project 1 "Alpha"]
                         [entry_on 1 1 (wednesday + 1) 60]) wednesday
     <> sum_durations
          (filter (in_week_to_date wednesday)
                  [entry_on 1 1 (wednesday + 1) 60]).
Proof. split; [reflexivity|]. split; [reflexivity|]. discriminate. Qed.

(** Sunday 2023-12-31 is three days before the Wednesday and in the week
    before: it adds nothing to the weekly total. *)
Lemma this_week_from_monday_witness :
  dt_date (e_start_time (entry_on 1 1 (wednesday - 3) 60)) < week_start wednesday
  /\ weekly_total (mk_db [mk_project 1 "Alpha"]
                         ([] ++ entry_on 1 1 (wednesday - 3) 60 :: []))
                  wednesday = 0.
Proof.
  assert (H : dt_date (e_start_time (entry_on 1 1 (wednesday - 3) 60))
              < week_start wednesday) by reflexivity.
  split; [exact H|].
  destruct (this_week_from_monday empty_db wednesday) as (_ & _ & _ & Hx & _).
  rewrite (Hx [mk_project 1 "Alpha"] [] _ [] H). reflexivity.
Defined.

Lemma export_round_trip_witness :
  In (mk_joined "Alpha" (mk_datetime 738886 32400000000)
                (mk_datetime 738886 33000000000) 600 EmptyString)
     (export_rows two_days)
  /\ parse_int "600" = Some 600.
Proof.
  assert (H : In (mk_joined "Alpha" (mk_datetime 738886 32400000000)
                            (mk_datetime 738886 33000000000) 600 EmptyString)
                 (export_rows two_days)) by (left; reflexivity).
  split; [exact H|].
  exact (proj1 (proj2 (export_round_trip two_days)) _ H).
Defined.

(** C8 as it is written fails on two entries of different days: the file
    has them in the order of their insertion, earliest first, and
    [list_entries] has the latest first. *)
Lemma export_order_differs_from_list_entries :
  parse_csv (export_text two_days) =
    [ csv_header;
      ["Alpha"; "2024-01-01 09:00:00"; "2024-01-01 09:10:00"; "600"; ""];
      ["Alpha"; "2024-01-02 09:00:00"; "2024-01-02 09:15:00"; "900"; ""]
    ]%string
  /\ map csv_fields (list_entries two_days) =
    [ ["Alpha"; "2024-01-02 09:00:00"; "2024-01-02 09:15:00"; "900"; ""];
      ["Alpha"; "2024-01-01 09:00:00"; "2024-01-01 09:10:00"; "600"; ""]
    ]%string
  /\ parse_csv (export_text two_days)
     <> csv_header :: map csv_fields (list_entries two_days).
Proof.
  split; [vm_compute; reflexivity|]. split; [vm_compute; reflexivity|].
  vm_compute. discriminate.
Qed.


Lemma orphan_entry_counted_not_listed_witness :
  (forall p, In p [mk_project 1 "Alpha"%string] ->
             p_id p <> e_project_id (entry_on 2 7 wednesday 900))
  /\ daily_total (mk_db [mk_project 1 "Alpha"]
                        ([entry_on 1 1 wednesday 600]
                         ++ entry_on 2 7 wednesday 900 :: [])) wednesday = 1500
  /\ list_entries (mk_db [mk_project 1 "Alpha"]
                         ([entry_on 1 1 wednesday 600]
                          ++ entry_on 2 7 wednesday 900 :: [])) =
     [mk_joined "Alpha" (mk_datetime wednesday 32400000000)
                (mk_datetime wednesday 33000000000) 600 EmptyString].
Proof.
  assert (H : forall p, In p [mk_project 1 "Alpha"%string] ->
                        p_id p <> e_project_id (entry_on 2 7 wednesday 900)).
  { intros p [E|[]]. subst p. discriminate. }
  split; [exact H|].
  destruct (orphan_entry_counted_not_listed [mk_project 1 "Alpha"%string]
              [entry_on 1 1 wednesday 600] [] (entry_on 2 7 wednesday 900)
              wednesday H) as (Hd & _ & Hl & _).
  split; [rewrite Hd; reflexivity|rewrite Hl; reflexivity].
Defined.

(** ** Worked runs of the further properties *)

Lemma format_time_width_witness :
  0 <= 3725 < 360000 /\ String.length (format_time 3725) = 8%nat.
Proof.
  assert (H : 0 <= 3725 < 360000) by lia.
  split; [exact H|]. exact (format_time_width 3725 H).
Defined.

Lemma elapsed_seconds_follow_clock_witness :
  ((t0 <= t0 + 60)%Q /\ (t0 + 60 <= t0 + 125)%Q)
  /\ py_int (t0 + 60 - t0) <= py_int (t0 + 125 - t0).
Proof.
  assert (H1 : (t0 <= t0 + 60)%Q) by (unfold Qle; simpl; lia).
  assert (H2 : (t0 + 60 <= t0 + 125)%Q) by (unfold Qle; simpl; lia).
  split; [split; assumption|].
  exact (proj1 (proj2 (elapsed_seconds_follow_clock t0 (t0 + 60) (t0 + 125)
                         H1 H2))).
Defined.

Lemma insert_project_then_lookup_witness :
  insert_project (mk_db [mk_project 1 "Alpha"] []) "Beta" =
    Some (mk_db [mk_project 1 "Alpha"; mk_project 2 "Beta"] [])
  /\ select_project_id
       (mk_db [mk_project 1 "Alpha"; mk_project 2 "Beta"] []) "Beta" = Some 2.
Proof.
  assert (H : insert_project (mk_db [mk_project 1 "Alpha"] []) "Beta" =
              Some (mk_db [mk_project 1 "Alpha"; mk_project 2 "Beta"] []))
    by reflexivity.
  split; [exact H|].
  exact (proj1 (proj2 (proj1 (insert_project_then_lookup
                                (mk_db [mk_project 1 "Alpha"] []) "Beta")
                         _ H))).
Defined.

Lemma add_project_twice_refused_witness :
  "Alpha"%string <> EmptyString
  /\ fst (add_project (Some "Alpha"%string) NoFault
            (snd (add_project (Some "Alpha"%string) NoFault fresh))) =
     ShowError "Error" "Project already exists".
Proof.
  assert (H : "Alpha"%string <> EmptyString) by discriminate.
  split; [exact H|].
  pose proof (proj1 (add_project_twice_refused fresh "Alpha" NoFault) H) as R.
  cbv zeta in R. rewrite R. reflexivity.
Defined.


Lemma run_start_goes_through_witness :
  (running (snd (run utc_fromtimestamp fresh alpha_selected)) = false
   /\ selection (snd (run utc_fromtimestamp fresh alpha_selected)) = Some 0%nat)
  /\ fst (start_timer t0 (snd (run utc_fromtimestamp fresh alpha_selected)))
     = Returned.
Proof.
  assert (H1 : running (snd (run utc_fromtimestamp fresh alpha_selected))
               = false) by reflexivity.
  assert (H2 : selection (snd (run utc_fromtimestamp fresh alpha_selected))
               = Some 0%nat) by reflexivity.
  split; [split; assumption|].
  destruct (run_start_goes_through utc_fromtimestamp alpha_selected t0 0%nat
              H1 H2) as [p (_ & _ & _ & E & _)].
  rewrite E. reflexivity.
Defined.

Lemma daily_total_within_weekly_witness :
  Forall (fun e => 0 <= e_duration e) (entries two_days)
  /\ 0 <= daily_total two_days 738887 <= weekly_total two_days 738887.
Proof.
  assert (H : Forall (fun e => 0 <= e_duration e) (entries two_days)).
  { repeat constructor; simpl; lia. }
  split; [exact H|]. exact (daily_total_within_weekly two_days 738887 H).
Defined.

Lemma stop_adds_duration_to_totals_witness :
  (active_project_id alpha_running = Some 1
   /\ running alpha_running = true
   /\ start_time alpha_running = Some t0)
  /\ daily_total
       (tables (conn (snd (stop_timer utc_fromtimestamp (t0 + 125) NoFault
                             alpha_running)))) wednesday = 125
  /\ fst (start_timer (t0 + 200)
            (snd (run utc_fromtimestamp fresh alpha_selected_again)))
     = Returned
  /\ daily_total
       (tables (conn (snd (start_timer (t0 + 200)
                             (snd (run utc_fromtimestamp fresh
                                     alpha_selected_again))))))
       wednesday = 125
  /\ weekly_total
       (tables (conn (snd (start_timer (t0 + 200)
                             (snd (run utc_fromtimestamp fresh
                                     alpha_selected_again))))))
       wednesday = 125.
Proof.
  assert (Ha : active_project_id alpha_running = Some 1) by reflexivity.
  assert (Hr : running alpha_running = true) by reflexivity.
  assert (Hs : start_time alpha_running = Some t0) by reflexivity.
  split; [repeat split; assumption|].
  pose proof (stop_adds_duration_to_totals utc_fromtimestamp (t0 + 125)
                t0 1 alpha_running wednesday Ha Hr Hs) as T.
  cbv zeta in T. destruct T as (E & _ & S).
  split; [rewrite E; reflexivity|]. split; [reflexivity|].
  destruct (S (t0 + 200)%Q
              (snd (run utc_fromtimestamp fresh alpha_selected_again))
              wednesday)
    as [D W].
  split; [rewrite D|rewrite W]; reflexivity.
Defined.

Lemma stop_retry_after_failed_commit_witness :
  (active_project_id alpha_running = Some 1
   /\ running alpha_running = true
   /\ start_time alpha_running = Some t0)
  /\ map e_duration
       (entries (committed (conn
          (snd (stop_timer utc_fromtimestamp (t0 + 125) NoFault
                  (snd (stop_timer utc_fromtimestamp (t0 + 60)
                          (CommitFails false) alpha_running)))))))
     = [60; 125].
Proof.
  assert (Ha : active_project_id alpha_running = Some 1) by reflexivity.
  assert (Hr : running alpha_running = true) by reflexivity.
  assert (Hs : start_time alpha_running = Some t0) by reflexivity.
  split; [repeat split; assumption|].
  pose proof (proj1 (proj2 (stop_retry_after_failed_commit utc_fromtimestamp
                              (t0 + 60) (t0 + 125) t0 1 alpha_running
                              Ha Hr Hs))) as E.
  cbv zeta in E. rewrite E. reflexivity.
Defined.

Lemma stop_lists_new_entry_first_witness :
  let s := snd (run utc_fromtimestamp fresh alpha_second_start) in
  (active_project_id s = Some (p_id (mk_project 1 "Alpha"))
   /\ running s = true
   /\ start_time s = Some (t0 + 200)%Q
   /\ In (mk_project 1 "Alpha") (projects (tables (conn s)))
   /\ NoDup (map p_id (projects (tables (conn s))))
   /\ Forall (fun r => dt_leb (utc_fromtimestamp (t0 + 200)) (j_start r)
                       = false)
             (list_entries (tables (conn s))))
  /\ list_entries (tables (conn s)) =
     [ mk_joined "Alpha" (mk_datetime 738888 32400000000)
                 (mk_datetime 738888 32525000000) 125 EmptyString ]
  /\ list_entries
       (tables (conn (snd (stop_timer utc_fromtimestamp (t0 + 300) NoFault
                             s)))) =
     [ mk_joined "Alpha" (mk_datetime 738888 32600000000)
                 (mk_datetime 738888 32700000000) 100 EmptyString;
       mk_joined "Alpha" (mk_datetime 738888 32400000000)
                 (mk_datetime 738888 32525000000) 125 EmptyString ]
  /\ map t_duration
       (tree (snd (stop_timer utc_fromtimestamp (t0 + 300) NoFault s))) =
     ["00:01:40"%string; "00:02:05"%string].
Proof.
  intros s.
  assert (Ha : active_project_id s = Some (p_id (mk_project 1 "Alpha")))
    by reflexivity.
  assert (Hr : running s = true) by reflexivity.
  assert (Hs : start_time s = Some (t0 + 200)%Q) by reflexivity.
  assert (Hp : In (mk_project 1 "Alpha") (projects (tables (conn s))))
    by (left; reflexivity).
  assert (N : NoDup (map p_id (projects (tables (conn s)))))
    by (repeat constructor; intros []).
  assert (L : list_entries (tables (conn s)) =
              [ mk_joined "Alpha" (mk_datetime 738888 32400000000)
                          (mk_datetime 738888 32525000000) 125 EmptyString ])
    by reflexivity.
  assert (F : Forall (fun r => dt_leb (utc_fromtimestamp (t0 + 200)) (j_start r)
                               = false)
                     (list_entries (tables (conn s)))).
  { rewrite L. constructor; [reflexivity|constructor]. }
  split; [repeat split; assumption|]. split; [exact L|].
  destruct (stop_lists_new_entry_first utc_fromtimestamp (t0 + 300) (t0 + 200)
              (mk_project 1 "Alpha") s Ha Hr Hs Hp N F) as (E & T & _).
  split; [rewrite E, L|rewrite T, L]; reflexivity.
Defined.

Lemma callbacks_keep_to_their_part_witness :
  (writes_store (ShowTotals wednesday) = false
   /\ moves_session (ShowTotals wednesday) = false)
  /\ conn (snd (step utc_fromtimestamp (ShowTotals wednesday) alpha_running))
     = conn alpha_running
  /\ active_project_id
       (snd (step utc_fromtimestamp (ShowTotals wednesday) alpha_running))
     = Some 1.
Proof.
  assert (H1 : writes_store (ShowTotals wednesday) = false) by reflexivity.
  assert (H2 : moves_session (ShowTotals wednesday) = false) by reflexivity.
  split; [split; assumption|].
  destruct (callbacks_keep_to_their_part utc_fromtimestamp
              (ShowTotals wednesday) alpha_running) as (C & S & _).
  split; [exact (C H1)|]. rewrite (proj1 (S H2)). reflexivity.
Defined.

Lemma faultless_run_keeps_display_in_sync_witness :
  forallb faultless alpha_session = true
  /\ display_in_sync (snd (run utc_fromtimestamp fresh alpha_session)).
Proof.
  assert (H : forallb faultless alpha_session = true) by reflexivity.
  split; [exact H|].
  exact (faultless_run_keeps_display_in_sync utc_fromtimestamp alpha_session H).
Defined.

Lemma chronological_run_durations_not_negative_witness :
  chronological t0 alpha_session
  /\ Forall (fun e => 0 <= e_duration e)
       (entries (tables (conn (snd (run utc_fromtimestamp fresh
                                      alpha_session))))).
Proof.
  assert (H : chronological t0 alpha_session).
  { simpl. split; [unfold Qle; simpl; lia|].
    split; [unfold Qle; simpl; lia|exact I]. }
  split; [exact H|].
  exact (proj1 (chronological_run_durations_not_negative utc_fromtimestamp
                  t0 alpha_session wednesday H)).
Defined.

Lemma week_turns_over_on_monday_witness :
  week_start wednesday <= wednesday + 4 <= week_start wednesday + 6
  /\ week_start (wednesday + 4) = week_start wednesday.
Proof.
  assert (H : week_start wednesday <= wednesday + 4 <= week_start wednesday + 6)
    by (vm_compute; split; discriminate).
  split; [exact H|].
  exact (proj1 (week_turns_over_on_monday empty_db wednesday (wednesday + 4) H)).
Defined.

Lemma weekly_total_is_sum_of_days_witness :
  Forall (fun e => dt_date (e_start_time e) <= wednesday) (entries two_days)
  /\ weekly_total two_days wednesday =
     sum_daily_totals two_days [738886; 738887; 738888].
Proof.
  assert (H : Forall (fun e => dt_date (e_start_time e) <= wednesday)
                     (entries two_days)).
  { repeat constructor; simpl; unfold wednesday; lia. }
  split; [exact H|].
  exact (weekly_total_is_sum_of_days two_days wednesday H).
Defined.
